(** * GkeEntityProvider: the GKE cluster catalog provider

    A shallow embedding of
    [plugins/catalog-backend-module-gcp/src/providers/GkeEntityProvider.ts]
    and the properties of its refresh cycle.

    JavaScript values that may be [undefined] or [null] are kept as such
    ([Nullable]); the logger, the cloud API and the catalog connection are
    observed through one trace of events; [async] methods are computations
    in a state-and-exception monad [M]. *)

From stdpp Require Import gmap strings list.

Open Scope string_scope.
Open Scope list_scope.

(** ** JavaScript values *)

(** A value of TypeScript type [A | null | undefined]. *)
Inductive Nullable (A : Type) : Type :=
| undefined
| null
| val (a : A).
Arguments undefined {A}.
Arguments null {A}.
Arguments val {A} a.

(** Truthiness of a string: every string but the empty one. *)
Definition truthyString (s : string) : bool :=
  negb (String.eqb s "").

(** Truthiness of a [string | null | undefined], the operand of [!]. *)
Definition truthy (v : Nullable string) : bool :=
  match v with
  | val s => truthyString s
  | _ => false
  end.

(** A substitution of a template literal: [String(v)]. *)
Definition tpl (v : Nullable string) : string :=
  match v with
  | undefined => "undefined"
  | null => "null"
  | val s => s
  end.

(** [v || d] on strings. *)
Definition orElse (v : Nullable string) (d : string) : string :=
  match v with
  | val s => if truthyString s then s else d
  | _ => d
  end.

(** [o?.f]: optional chaining through a nullable object. *)
Definition optChain {A B} (o : Nullable A) (f : A -> Nullable B) : Nullable B :=
  match o with
  | val a => f a
  | _ => undefined
  end.

(** [v ?? d]: nullish coalescing. *)
Definition nullish {A} (v : Nullable A) (d : A) : A :=
  match v with
  | val a => a
  | _ => d
  end.

(** The value of an expression that a truthiness guard has narrowed to
    [string]; the guard excludes the two other cases. *)
Definition narrowed (v : Nullable string) : string :=
  match v with
  | val s => s
  | _ => ""
  end.

(** A thrown or rejected value. *)
Record JsError := mkError { errorClass : string; message : string }.

(** How a call or a promise ends. *)
Inductive Result (A : Type) : Type :=
| Return (a : A)
| Throw (e : JsError).
Arguments Return {A} a.
Arguments Throw {A} e.

(** A promise of the outside world: when it settles and how.  The time only
    orders the settlements of promises that are awaited together. *)
Record Promise (A : Type) := mkPromise { settledAt : nat; result : Result A }.
Arguments mkPromise {A} settledAt result.
Arguments settledAt {A} p.
Arguments result {A} p.

Definition resolved {A} (t : nat) (a : A) : Promise A := mkPromise t (Return a).
Definition rejected {A} (t : nat) (e : JsError) : Promise A := mkPromise t (Throw e).

(** The promise of an [async] function whose body awaits [p] and then
    returns [f] of its value. *)
Definition promiseThen {A B} (p : Promise A) (f : A -> B) : Promise B :=
  mkPromise (settledAt p)
    match result p with
    | Return a => Return (f a)
    | Throw e => Throw e
    end.

(** The earliest rejection among [ps]: its time and reason.  Of two
    rejections settled at the same time the one of the earlier element
    is taken. *)
Fixpoint firstRejection {A} (ps : list (Promise A)) : option (nat * JsError) :=
  match ps with
  | [] => None
  | p :: rest =>
      match result p, firstRejection rest with
      | Return _, r => r
      | Throw e, None => Some (settledAt p, e)
      | Throw e, Some (t, e') =>
          if (t <? settledAt p)%nat then Some (t, e') else Some (settledAt p, e)
      end
  end.

(** The values of the fulfilled promises of [ps], in order. *)
Fixpoint fulfilledValues {A} (ps : list (Promise A)) : list A :=
  match ps with
  | [] => []
  | p :: rest =>
      match result p with
      | Return a => a :: fulfilledValues rest
      | Throw _ => fulfilledValues rest
      end
  end.

(** [Promise.all(ps)]: rejects with the first rejection to settle, and
    otherwise fulfils with all the values in the order of [ps]. *)
Definition Promise_all {A} (ps : list (Promise A)) : Promise (list A) :=
  match firstRejection ps with
  | Some (t, e) => rejected t e
  | None => resolved (foldr Nat.max 0%nat (settledAt <$> ps)) (fulfilledValues ps)
  end.

(** ** Data model *)

(** [container.protos.google.container.v1.IMasterAuth], the field read here. *)
Record IMasterAuth := { clusterCaCertificate : Nullable string }.

(** [container.protos.google.container.v1.ICluster], the fields read here. *)
Record ICluster := {
  name : Nullable string;
  selfLink : Nullable string;
  location : Nullable string;
  endpoint : Nullable string;
  masterAuth : Nullable IMasterAuth;
}.

(** [IListClustersResponse]. *)
Record ListClustersResponse := {
  clusters : Nullable (list (Nullable ICluster));
}.

Record EntityMeta := {
  annotations : gmap string string;
  entityName : string;
  namespace : string;
}.

Record EntitySpec := { type : string; owner : string }.

Record Entity := {
  apiVersion : string;
  kind : string;
  metadata : EntityMeta;
  spec : EntitySpec;
}.

Record DeferredEntity := { locationKey : string; entity : Entity }.

(** [EntityProviderMutation]. *)
Inductive Mutation :=
| full (entities : list DeferredEntity)
| delta (added removed : list DeferredEntity).

Definition mutationType (m : Mutation) : string :=
  match m with
  | full _ => "full"
  | delta _ _ => "delta"
  end.

(** The cloud API behind the client.  Its answer to a request depends on the
    refresh cycle in which the request is made. *)
Record ClusterManagerClient := {
  listClusters : nat -> string -> Promise ListClustersResponse;
}.

(** The catalog connection: how [applyMutation] ends in a given cycle. *)
Record EntityProviderConnection := {
  applyMutation : nat -> Mutation -> Result unit;
}.

(** Modelled from the spec: the task runner of the host scheduler
    ([TaskRunner] of [@backstage/backend-tasks]).  It invokes the task
    function once per tick of the recurring schedule, one invocation at a
    time; [ticks] is the number of ticks observed. *)
Record TaskRunner := { ticks : nat }.

(** The fields of the class.  The logger is observed through the trace and
    [scheduleFn] is [createScheduleFn] of [taskRunner]. *)
Record GkeEntityProvider := {
  taskRunner : TaskRunner;
  gkeParents : list string;
  clusterManagerClient : ClusterManagerClient;
  connection : option EntityProviderConnection;
}.

(** ** Observable events *)

Inductive Level := info | warn | error.

Inductive Event :=
| Log (level : Level) (msg : string) (meta : option JsError)
| LogObject (level : Level) (e : JsError)
| ListClustersRequest (parent : string)
| ApplyMutationCall (m : Mutation).

Definition isLog (l : Level) (ev : Event) : bool :=
  match ev, l with
  | Log info _ _, info | Log warn _ _, warn | Log error _ _, error => true
  | LogObject info _, info | LogObject warn _, warn | LogObject error _, error => true
  | _, _ => false
  end.

(** The mutations submitted to the sink, in order. *)
Fixpoint sinkCalls (tr : list Event) : list Mutation :=
  match tr with
  | [] => []
  | ApplyMutationCall m :: rest => m :: sinkCalls rest
  | _ :: rest => sinkCalls rest
  end.

(** The parents of the list requests made, in order. *)
Fixpoint apiCalls (tr : list Event) : list string :=
  match tr with
  | [] => []
  | ListClustersRequest p :: rest => p :: apiCalls rest
  | _ :: rest => apiCalls rest
  end.

(** ** The monad of the methods *)

(** The provider object, the events so far (oldest first) and the current
    cycle of the schedule. *)
Record State := {
  this : GkeEntityProvider;
  trace : list Event;
  cycle : nat;
}.

Definition M (A : Type) : Type := State -> Result A * State.

Definition ret {A} (a : A) : M A := fun st => (Return a, st).

Definition bind {A B} (m : M A) (k : A -> M B) : M B :=
  fun st =>
    match m st with
    | (Return a, st') => k a st'
    | (Throw e, st') => (Throw e, st')
    end.

Definition throw {A} (e : JsError) : M A := fun st => (Throw e, st).

(** [try { body } catch (e) { handler(e) }]. *)
Definition tryCatch {A} (body : M A) (handler : JsError -> M A) : M A :=
  fun st =>
    match body st with
    | (Return a, st') => (Return a, st')
    | (Throw e, st') => handler e st'
    end.

Definition getThis : M GkeEntityProvider := fun st => (Return (this st), st).

Definition getCycle : M nat := fun st => (Return (cycle st), st).

Definition emit (ev : Event) : M unit :=
  fun st =>
    (Return tt, {| this := this st; trace := trace st ++ [ev]; cycle := cycle st |}).

(** [await p]. *)
Definition await {A} (p : Promise A) : M A := fun st => (result p, st).

Declare Scope js_scope.
Delimit Scope js_scope with js.
Notation "x <- c1 ;; c2" := (bind c1 (fun x => c2))
  (at level 100, c1 at next level, right associativity) : js_scope.
Notation "c1 ;; c2" := (bind c1 (fun _ => c2))
  (at level 100, right associativity) : js_scope.
Open Scope js_scope.

(** [xs.map(f)] for an effectful [f], element by element. *)
Fixpoint mapM {A B} (f : A -> M B) (xs : list A) : M (list B) :=
  match xs with
  | [] => ret []
  | x :: rest =>
      y <- f x ;;
      ys <- mapM f rest ;;
      ret (y :: ys)
  end.

(** Reading a property of [o]: a [TypeError] when [o] is nullish. *)
Definition deref {A} (o : Nullable A) : M A :=
  match o with
  | val a => ret a
  | undefined =>
      throw (mkError "TypeError" "Cannot read properties of undefined")
  | null =>
      throw (mkError "TypeError" "Cannot read properties of null")
  end.

Definition logger_info (msg : string) : M unit := emit (Log info msg None).
Definition logger_warn (msg : string) : M unit := emit (Log warn msg None).
Definition logger_error (msg : string) (e : JsError) : M unit :=
  emit (Log error msg (Some e)).
Definition logger_error_object (e : JsError) : M unit :=
  emit (LogObject error e).

(** An object literal: the properties are defined in source order, so a
    later property overrides an earlier one of the same key. *)
Definition objectLiteral (props : list (string * string)) : gmap string string :=
  foldl (fun o kv => <[kv.1 := kv.2]> o) ∅ props.

(** [xs.join(sep)] on strings. *)
Definition join (sep : string) (xs : list string) : string :=
  String.concat sep xs.

(** Truthiness of an object reference that may be [undefined]. *)
Definition isSome {A} (o : option A) : bool :=
  match o with
  | Some _ => true
  | None => false
  end.

(** ** Configuration *)

(** Modelled from the spec: the configuration reader ([Config] of
    [@backstage/config]).  [getConfig] gives the sub-configuration at a key
    and [getStringArray] the list of strings at a key; each throws when the
    key is missing or holds a value of another shape. *)
#[warnings="-register-all"]
Inductive Config :=
  mkConfig {
    getConfig : string -> Result Config;
    getStringArray : string -> Result (list string);
  }.

(** The winston logger; its calls are what the trace records. *)
Inductive Logger := winstonLogger.

(** Sequencing of calls that may throw, outside the methods' monad. *)
Definition andThen {A B} (r : Result A) (k : A -> Result B) : Result B :=
  match r with
  | Return a => k a
  | Throw e => Throw e
  end.

(** ** Scenario data *)

(** The annotation keys as [@backstage/plugin-kubernetes-common] has them. *)
Definition KUBERNETES_API_SERVER : string := "kubernetes.io/api-server".
Definition KUBERNETES_API_SERVER_CA : string :=
  "kubernetes.io/api-server-certificate-authority".
Definition KUBERNETES_AUTH_PROVIDER : string := "kubernetes.io/auth-provider".

(** A complete record. *)
Definition clusterA : ICluster :=
  {| name := val "a"; selfLink := val "s"; location := val "us";
     endpoint := val "1.2.3.4";
     masterAuth := val {| clusterCaCertificate := val "Q0E=" |} |}.

(** A record without an endpoint. *)
Definition clusterWithoutEndpoint : ICluster :=
  {| name := val "b"; selfLink := val "s2"; location := val "eu";
     endpoint := undefined; masterAuth := undefined |}.

(** A record that has a name, a self link and an endpoint but no location. *)
Definition clusterWithoutLocation : ICluster :=
  {| name := val "a"; selfLink := val "s"; location := undefined;
     endpoint := val "1.2.3.4"; masterAuth := undefined |}.

(** A client that answers [p1] and [p2] as given and has nothing elsewhere. *)
Definition clientOf (r1 r2 : Promise ListClustersResponse) : ClusterManagerClient :=
  {| listClusters := fun _ parent =>
       if String.eqb parent "p1" then r1
       else if String.eqb parent "p2" then r2
       else resolved 0 {| clusters := val [] |} |}.

Definition acceptingSink : EntityProviderConnection :=
  {| applyMutation := fun _ _ => Return tt |}.

Definition rejectingSink : EntityProviderConnection :=
  {| applyMutation := fun _ _ => Throw (mkError "Error" "catalog unavailable") |}.

(** A connected provider over the parents [p1] and [p2]. *)
Definition providerOf (client : ClusterManagerClient) (sink : EntityProviderConnection)
  : State :=
  {| this := {| taskRunner := {| ticks := 2 |};
                gkeParents := ["p1"; "p2"];
                clusterManagerClient := client;
                connection := Some sink |};
     trace := [];
     cycle := 0 |}.

(** [p1] has one complete record and a null entry, [p2] one record without
    an endpoint. *)
Definition twoParents : State :=
  providerOf
    (clientOf (resolved 2 {| clusters := val [val clusterA; null] |})
              (resolved 1 {| clusters := val [val clusterWithoutEndpoint] |}))
    acceptingSink.

(** The list call of [p1] rejects. *)
Definition firstParentFails : State :=
  providerOf
    (clientOf (rejected 1 (mkError "Error" "permission denied"))
              (resolved 2 {| clusters := val [val clusterA] |}))
    acceptingSink.

(** The response of [p2] has no clusters field. *)
Definition secondParentEmpty : State :=
  providerOf
    (clientOf (resolved 1 {| clusters := val [val clusterA] |})
              (resolved 2 {| clusters := null |}))
    acceptingSink.

(** The sink rejects the mutation. *)
Definition sinkFails : State :=
  providerOf
    (clientOf (resolved 1 {| clusters := val [val clusterA] |})
              (resolved 2 {| clusters := undefined |}))
    rejectingSink.

(** [p1] has one record, which has no location; [p2] has no record. *)
Definition locationMissing : State :=
  providerOf
    (clientOf (resolved 1 {| clusters := val [val clusterWithoutLocation] |})
              (resolved 2 {| clusters := val [] |}))
    acceptingSink.

(** A cloud API whose list calls reject in the cycles before [healthyFrom]
    and return one complete record per parent from then on. *)
Definition recoveringClient (healthyFrom : nat) : ClusterManagerClient :=
  {| listClusters := fun n _ =>
       if (n <? healthyFrom)%nat
       then rejected 1 (mkError "Error" "unavailable")
       else resolved 1 {| clusters := val [val clusterA] |} |}.

(** A configuration with nothing in it. *)
Definition emptyConfig : Config :=
  {| getConfig := fun key => Throw (mkError "Error" ("Missing required config value at '" +:+ key +:+ "'"));
     getStringArray := fun key => Throw (mkError "Error" ("Missing required config value at '" +:+ key +:+ "'")) |}.

(** The configuration [catalog.providers.gcp.gke] with a schedule section
    and the given parents. *)
Definition gkeConfig (parents : list string) : Config :=
  {| getConfig := fun key =>
       if String.eqb key "catalog.providers.gcp.gke" then
         Return {| getConfig := fun key' =>
                     if String.eqb key' "schedule" then Return emptyConfig
                     else getConfig emptyConfig key';
                   getStringArray := fun key' =>
                     if String.eqb key' "parents" then Return parents
                     else getStringArray emptyConfig key' |}
       else getConfig emptyConfig key;
     getStringArray := getStringArray emptyConfig |}.

(** ** The provider *)

Section Provider.

(** The annotation keys exported by [@backstage/plugin-kubernetes-common],
    a package outside this module. *)
Variable ANNOTATION_KUBERNETES_API_SERVER : string.
Variable ANNOTATION_KUBERNETES_API_SERVER_CA : string.
Variable ANNOTATION_KUBERNETES_AUTH_PROVIDER : string.

(** [getProviderName()]. *)
Definition getProviderName : string := "gcp-gke".

Definition filterOutUndefinedDeferredEntity (e : option DeferredEntity) : bool :=
  match e with
  | Some _ => true
  | None => false
  end.

Definition filterOutUndefinedCluster (c : Nullable ICluster) : bool :=
  match c with
  | val _ => true
  | undefined | null => false
  end.

(** [clusterToResource(cluster)].  [location'] is the local [location]; the
    guard tests it, not [cluster.location]. *)
Definition clusterToResource (cluster : Nullable ICluster)
  : M (option DeferredEntity) :=
  c <- deref cluster ;;
  let location' := getProviderName +:+ ":" +:+ tpl (location c) in
  if negb (truthy (name c)) || negb (truthy (selfLink c))
     || negb (truthyString location') || negb (truthy (endpoint c))
  then
    logger_warn
      ("ignoring partial cluster, one of name=" +:+ tpl (name c)
       +:+ ", endpoint=" +:+ tpl (endpoint c)
       +:+ ", selfLink=" +:+ tpl (selfLink c)
       +:+ " or location=" +:+ tpl (location c)
       +:+ " is missing") ;;
    ret None
  else
    ret (Some {|
      locationKey := location';
      entity := {|
        apiVersion := "backstage.io/v1alpha1";
        kind := "Resource";
        metadata := {|
          annotations := objectLiteral [
            (ANNOTATION_KUBERNETES_API_SERVER,
               "https://" +:+ tpl (endpoint c));
            (ANNOTATION_KUBERNETES_API_SERVER_CA,
               orElse (optChain (masterAuth c) clusterCaCertificate) "");
            (ANNOTATION_KUBERNETES_AUTH_PROVIDER, "google");
            ("backstage.io/managed-by-location", location');
            ("backstage.io/managed-by-origin-location", location')
          ];
          entityName := narrowed (name c);
          namespace := "default";
        |};
        spec := {| type := "kubernetes-cluster"; owner := "unknown" |};
      |};
    |}).

(** [this.clusterManagerClient.listClusters(request)]: the request is made
    when the call is, and its promise is awaited later. *)
Definition callListClusters (parent : string) : M (Promise ListClustersResponse) :=
  self <- getThis ;;
  n <- getCycle ;;
  emit (ListClustersRequest parent) ;;
  ret (listClusters (clusterManagerClient self) n parent).

(** All the requests are made before the first of them is awaited; then
    [Promise.all] waits for them together. *)
Definition getClusters : M (list (Nullable ICluster)) :=
  self <- getThis ;;
  promises <- mapM (fun parent =>
      response <- callListClusters parent ;;
      ret (promiseThen response (fun response =>
        nullish
          (optChain (clusters response)
             (fun cs => val (List.filter filterOutUndefinedCluster cs)))
          [])))
    (gkeParents self) ;;
  clusters <- await (Promise_all promises) ;;
  ret (concat clusters).

(** [await this.connection.applyMutation(m)]. *)
Definition callApplyMutation (m : Mutation) : M unit :=
  self <- getThis ;;
  match connection self with
  | None =>
      throw (mkError "TypeError" "Cannot read properties of undefined")
  | Some conn =>
      n <- getCycle ;;
      emit (ApplyMutationCall m) ;;
      await (mkPromise 0 (applyMutation conn n m))
  end.

(** [refresh()].  The [catch] block returns from the method; [fetched] is
    [None] on that path.  The [?? []] after [filter] never applies. *)
Definition refresh : M unit :=
  self <- getThis ;;
  if negb (isSome (connection self)) then
    throw (mkError "Error" "Not initialized")
  else
    logger_info "Discovering GKE clusters" ;;
    fetched <- tryCatch
      (clusters <- getClusters ;; ret (Some clusters))
      (fun e => logger_error "error fetching GKE clusters" e ;; ret None) ;;
    match fetched with
    | None => ret tt
    | Some clusters =>
        mapped <- mapM clusterToResource clusters ;;
        let resources :=
          omap id (List.filter filterOutUndefinedDeferredEntity mapped) in
        logger_info
          ("Ingesting GKE clusters ["
           +:+ join ", " ((fun r => entityName (metadata (entity r))) <$> resources)
           +:+ "]") ;;
        callApplyMutation (full resources)
    end.

(** The function handed to the task runner. *)
Definition scheduledTask : M unit :=
  tryCatch refresh (fun error => logger_error_object error).

(** The schedule moves on to its next tick. *)
Definition nextCycle : M unit :=
  fun st =>
    (Return tt, {| this := this st; trace := trace st; cycle := S (cycle st) |}).

(** Modelled from the spec: [taskRunner.run({ id, fn })] of the host
    scheduler.  [fn] is invoked once per tick; an exception that escapes
    an invocation ends the recurring schedule. *)
Fixpoint TaskRunner_run (n : nat) (id : string) (fn : M unit) : M unit :=
  match n with
  | O => ret tt
  | S n' => fn ;; nextCycle ;; TaskRunner_run n' id fn
  end.

(** [createScheduleFn(taskRunner)]: the closure stored in [scheduleFn]. *)
Definition createScheduleFn (taskRunner : TaskRunner) : M unit :=
  let taskId := getProviderName +:+ ":refresh" in
  TaskRunner_run (ticks taskRunner) taskId scheduledTask.

Definition scheduleFn : M unit :=
  self <- getThis ;;
  createScheduleFn (taskRunner self).

(** [connect(connection)]: stores the connection, then awaits [scheduleFn]. *)
Definition connect (conn : EntityProviderConnection) : M unit :=
  (fun st =>
     (Return tt,
      {| this := {| taskRunner := taskRunner (this st);
                    gkeParents := gkeParents (this st);
                    clusterManagerClient := clusterManagerClient (this st);
                    connection := Some conn |};
         trace := trace st; cycle := cycle st |})) ;;
  scheduleFn.

(** ** Derived notions used in the statements *)

(** [st] with the events [evs] appended to its trace. *)
Definition addTrace (st : State) (evs : list Event) : State :=
  {| this := this st; trace := trace st ++ evs; cycle := cycle st |}.

(** A provider that has just been constructed with no parents. *)
Definition idleState : State :=
  {| this := {| taskRunner := {| ticks := 0 |};
                gkeParents := [];
                clusterManagerClient :=
                  {| listClusters := fun _ _ => resolved 0 {| clusters := undefined |} |};
                connection := None |};
     trace := [];
     cycle := 0 |}.

(** What [clusterToResource] returns for [c]; [None] when it returns
    [undefined] or throws. *)
Definition mappedEntity (c : Nullable ICluster) : option DeferredEntity :=
  match (clusterToResource c idleState).1 with
  | Return r => r
  | Throw _ => None
  end.

(** What [clusterToResource] logs for [c]. *)
Definition warningsOf (c : Nullable ICluster) : list Event :=
  trace (clusterToResource c idleState).2.

(** The entities mapped from a sequence of records. *)
Definition mappedEntities (cs : list (Nullable ICluster)) : list DeferredEntity :=
  omap mappedEntity cs.

(** The records one parent's response carries, as the API sent them. *)
Definition recordsOfParent (st : State) (parent : string) : list (Nullable ICluster) :=
  match result (listClusters (clusterManagerClient (this st)) (cycle st) parent) with
  | Return response => nullish (clusters response) []
  | Throw _ => []
  end.

(** The list call of [parent] is fulfilled in the cycle of [st]. *)
Definition listFulfilled (st : State) (parent : string) : Prop :=
  exists response,
    result (listClusters (clusterManagerClient (this st)) (cycle st) parent)
    = Return response.

(** The list call of [parent] rejects with [e] in the cycle of [st]. *)
Definition listRejected (st : State) (parent : string) (e : JsError) : Prop :=
  result (listClusters (clusterManagerClient (this st)) (cycle st) parent) = Throw e.

(** Non-nullish entries, unwrapped. *)
Definition unwrap (cs : list (Nullable ICluster)) : list ICluster :=
  omap (fun c => match c with val c => Some c | _ => None end) cs.

(** The promise of the callback of [getClusters] for [parent]. *)
Definition parentPromise (st : State) (parent : string)
  : Promise (list (Nullable ICluster)) :=
  promiseThen (listClusters (clusterManagerClient (this st)) (cycle st) parent)
    (fun response =>
       nullish
         (optChain (clusters response)
            (fun cs => val (List.filter filterOutUndefinedCluster cs)))
         []).

(** The union over the parents of the entities mapped from their records. *)
Definition entitiesOfParents (st : State) : list DeferredEntity :=
  mjoin ((fun p => mappedEntities (recordsOfParent st p)) <$> gkeParents (this st)).

(** A complete record as the specification reads it: the four fields are
    present and non-empty. *)
Definition hasRequiredFields (c : ICluster) : bool :=
  truthy (name c) && truthy (selfLink c) && truthy (location c)
  && truthy (endpoint c).

(** The five annotation keys of the object literal are pairwise distinct. *)
Definition distinctKeys : Prop :=
  NoDup [ANNOTATION_KUBERNETES_API_SERVER;
         ANNOTATION_KUBERNETES_API_SERVER_CA;
         ANNOTATION_KUBERNETES_AUTH_PROVIDER;
         "backstage.io/managed-by-location";
         "backstage.io/managed-by-origin-location"].

(** ** Construction *)

(** What the module imports for its construction: the schedule parser of
    [@backstage/backend-tasks], the schedule definition it yields, and the
    client that [new container.v1.ClusterManagerClient()] makes. *)
Variable TaskScheduleDefinition : Type.
Variable readTaskScheduleDefinitionFromConfig : Config -> Result TaskScheduleDefinition.
Variable newClusterManagerClient : ClusterManagerClient.

(** [SchedulerService] of [@backstage/backend-plugin-api], the method used. *)
Record SchedulerService := {
  createScheduledTaskRunner : TaskScheduleDefinition -> TaskRunner;
}.

(** The private constructor.  No connection is stored yet. *)
Definition GkeEntityProvider_new (logger : Logger) (runner : TaskRunner)
    (parents : list string) (client : ClusterManagerClient) : GkeEntityProvider :=
  {| taskRunner := runner;
     gkeParents := parents;
     clusterManagerClient := client;
     connection := None |}.

(** [fromConfigWithClient({ logger, scheduler, config, clusterManagerClient })].
    The arguments of [new] are evaluated in order: the task runner before
    the parents. *)
Definition fromConfigWithClient (logger : Logger) (scheduler : SchedulerService)
    (config : Config) (client : ClusterManagerClient) : Result GkeEntityProvider :=
  andThen (getConfig config "catalog.providers.gcp.gke") (fun gkeProviderConfig =>
  andThen (getConfig gkeProviderConfig "schedule") (fun scheduleConfig =>
  andThen (readTaskScheduleDefinitionFromConfig scheduleConfig) (fun schedule =>
  let runner := createScheduledTaskRunner scheduler schedule in
  andThen (getStringArray gkeProviderConfig "parents") (fun parents =>
  Return (GkeEntityProvider_new logger runner parents client))))).

(** [fromConfig({ logger, scheduler, config })]. *)
Definition fromConfig (logger : Logger) (scheduler : SchedulerService)
    (config : Config) : Result GkeEntityProvider :=
  fromConfigWithClient logger scheduler config newClusterManagerClient.

(** The state in which a provider [p] starts, before any event. *)
Definition started (p : GkeEntityProvider) : State :=
  {| this := p; trace := []; cycle := 0 |}.

(** ** Further derived notions *)

(** [st] once [connect] has stored [conn]. *)
Definition withConnection (st : State) (conn : EntityProviderConnection) : State :=
  {| this := {| taskRunner := taskRunner (this st);
                gkeParents := gkeParents (this st);
                clusterManagerClient := clusterManagerClient (this st);
                connection := Some conn |};
     trace := trace st;
     cycle := cycle st |}.

(** Every list call is fulfilled in the cycle of [st], as a test. *)
Definition allFulfilled (st : State) : bool :=
  forallb
    (fun parent =>
       match result (listClusters (clusterManagerClient (this st)) (cycle st) parent) with
       | Return _ => true
       | Throw _ => false
       end)
    (gkeParents (this st)).

(** [st] as it is [k] ticks later, the trace apart. *)
Definition atTick (st : State) (k : nat) : State :=
  {| this := this st; trace := trace st; cycle := (k + cycle st)%nat |}.

(** What a connected cycle started in [st] submits: the snapshot when every
    list call is fulfilled, nothing otherwise. *)
Definition cycleSubmission (st : State) : list Mutation :=
  if allFulfilled st then [full (entitiesOfParents st)] else [].

(** The non-null records of the responses of all the parents, in order. *)
Definition upstreamRecords (st : State) : list ICluster :=
  unwrap (concat (recordsOfParent st <$> gkeParents (this st))).

(** The record has a name, a self link and an endpoint: the three fields
    whose absence the guard of [clusterToResource] detects. *)
Definition passesGuard (c : ICluster) : bool :=
  truthy (name c) && truthy (selfLink c) && truthy (endpoint c).

(** [e] is the resource entity of the record [c], field by field: the
    location key is the provider name, a colon and the location as the
    template literal prints it; the name is the record's; the API-server
    annotation (read under keys that do not override one another) is the
    URL of the endpoint; the other fields are the fixed ones. *)
Definition entityFor (c : ICluster) (e : DeferredEntity) : Prop :=
  locationKey e = getProviderName +:+ ":" +:+ tpl (location c)
  /\ kind (entity e) = "Resource"
  /\ entityName (metadata (entity e)) = narrowed (name c)
  /\ namespace (metadata (entity e)) = "default"
  /\ type (spec (entity e)) = "kubernetes-cluster"
  /\ owner (spec (entity e)) = "unknown"
  /\ (distinctKeys ->
      annotations (metadata (entity e)) !! ANNOTATION_KUBERNETES_API_SERVER
      = Some ("https://" +:+ narrowed (endpoint c))).

(** ** Running computations *)

Lemma addTrace_nil st : addTrace st [] = st.
Proof. destruct st. unfold addTrace. simpl. by rewrite app_nil_r. Qed.

Lemma addTrace_app st evs evs' :
  addTrace (addTrace st evs) evs' = addTrace st (evs ++ evs').
Proof. unfold addTrace. simpl. by rewrite app_assoc. Qed.

Lemma emit_run ev st : emit ev st = (Return tt, addTrace st [ev]).
Proof. reflexivity. Qed.

Lemma sinkCalls_app tr tr' : sinkCalls (tr ++ tr') = sinkCalls tr ++ sinkCalls tr'.
Proof.
  induction tr as [|ev tr IH]; [done|].
  destruct ev; simpl; by rewrite ?IH.
Qed.

Lemma sinkCalls_requests ps : sinkCalls (ListClustersRequest <$> ps) = [].
Proof. by induction ps. Qed.

(** A [map] whose callback returns a value and logs, both independent of
    the trace, returns the values and logs in order. *)
Lemma mapM_run {A B} (f : A -> M B) (g : State -> A -> B) (h : A -> list Event) :
  (forall x st, f x st = (Return (g st x), addTrace st (h x))) ->
  (forall st evs x, g (addTrace st evs) x = g st x) ->
  forall xs st,
    mapM f xs st = (Return (g st <$> xs), addTrace st (mjoin (h <$> xs))).
Proof.
  intros Hf Hg xs. induction xs as [|x xs IH]; intros st.
  - simpl. by rewrite addTrace_nil.
  - simpl. unfold bind at 1. rewrite Hf.
    unfold bind at 1. rewrite IH. unfold ret.
    rewrite addTrace_app. f_equal. f_equal. f_equal.
    apply list_fmap_ext. intros _ y _. apply Hg.
Qed.

Lemma mapM_fmap {A B C} (f : B -> M C) (g : A -> B) xs :
  mapM f (g <$> xs) = mapM (fun x => f (g x)) xs.
Proof.
  induction xs as [|x xs IH]; [done|].
  rewrite fmap_cons. cbn [mapM]. by rewrite IH.
Qed.

Lemma clusterToResource_val c st :
  clusterToResource (val c) st
  = (Return (mappedEntity (val c)), addTrace st (warningsOf (val c))).
Proof.
  cbv [mappedEntity warningsOf clusterToResource deref bind ret].
  match goal with |- context [if ?g then _ else _] => destruct g end.
  - reflexivity.
  - cbn [fst snd trace idleState]. by rewrite addTrace_nil.
Qed.

Lemma filter_unwrap cs :
  List.filter filterOutUndefinedCluster cs = val <$> unwrap cs.
Proof.
  induction cs as [|c cs IH]; [done|].
  destruct c; simpl; rewrite IH; reflexivity.
Qed.

Lemma mappedEntity_nullish c :
  filterOutUndefinedCluster c = false -> mappedEntity c = None.
Proof. by destruct c. Qed.

Lemma mappedEntities_cons c cs :
  mappedEntities (c :: cs)
  = match mappedEntity c with
    | Some e => e :: mappedEntities cs
    | None => mappedEntities cs
    end.
Proof. reflexivity. Qed.

Lemma mappedEntities_filter cs :
  mappedEntities (List.filter filterOutUndefinedCluster cs) = mappedEntities cs.
Proof.
  induction cs as [|c cs IH]; [done|].
  cbn [List.filter]. destruct (filterOutUndefinedCluster c) eqn:Hc.
  - by rewrite !mappedEntities_cons, IH.
  - by rewrite mappedEntities_cons, (mappedEntity_nullish c Hc).
Qed.

Lemma mappedEntities_app cs cs' :
  mappedEntities (cs ++ cs') = mappedEntities cs ++ mappedEntities cs'.
Proof. apply omap_app. Qed.

Lemma mapM_clusterToResource cs st :
  mapM clusterToResource (val <$> cs) st
  = (Return ((fun c => mappedEntity (val c)) <$> cs),
     addTrace st (mjoin ((fun c => warningsOf (val c)) <$> cs))).
Proof.
  rewrite mapM_fmap.
  apply (mapM_run (fun c => clusterToResource (val c))
           (fun _ c => mappedEntity (val c)) (fun c => warningsOf (val c))).
  - intros c st'. apply clusterToResource_val.
  - reflexivity.
Qed.

Lemma omap_filter_defined cs :
  omap id (List.filter filterOutUndefinedDeferredEntity
             ((fun c => mappedEntity (val c)) <$> cs))
  = mappedEntities (val <$> cs).
Proof.
  induction cs as [|c cs IH]; [done|].
  rewrite !fmap_cons, mappedEntities_cons. cbn [List.filter].
  destruct (mappedEntity (val c)); cbn [filterOutUndefinedDeferredEntity];
    [|exact IH].
  change (omap id (Some ?d :: ?l)) with (d :: omap id l). by rewrite IH.
Qed.

(** [clusterToResource] logs warnings only. *)
Lemma warningsOf_warn c : Forall (fun ev => isLog warn ev = true) (warningsOf c).
Proof.
  destruct c as [| |c]; [constructor | constructor |].
  cbv [warningsOf clusterToResource deref bind ret].
  match goal with |- context [if ?g then _ else _] => destruct g end.
  - repeat constructor.
  - constructor.
Qed.

Lemma sinkCalls_warnings evs :
  Forall (fun ev => isLog warn ev = true) evs -> sinkCalls evs = [].
Proof.
  induction 1 as [|ev evs Hev _ IH]; [done|].
  destruct ev; simpl in *; try done; discriminate.
Qed.

Lemma warnings_all cs :
  Forall (fun ev => isLog warn ev = true)
    (mjoin ((fun c => warningsOf (val c)) <$> cs)).
Proof.
  induction cs as [|c cs IH]; [constructor|].
  rewrite fmap_cons. simpl. apply Forall_app. split; [apply warningsOf_warn | exact IH].
Qed.

(** ** Promises *)

Lemma firstRejection_Some {A} (ps : list (Promise A)) t e :
  firstRejection ps = Some (t, e) ->
  exists p, p ∈ ps /\ result p = Throw e /\ settledAt p = t.
Proof.
  revert t e. induction ps as [|p ps IH]; intros t e; [done|].
  simpl. destruct (result p) as [a|e0] eqn:Hp.
  - intros H. destruct (IH _ _ H) as (q & Hq & Hr & Ht).
    exists q. split; [by right | done].
  - destruct (firstRejection ps) as [[t' e']|] eqn:Hrest.
    + destruct (t' <? settledAt p)%nat; intros [= <- <-].
      * destruct (IH _ _ eq_refl) as (q & Hq & Hr & Ht).
        exists q. split; [by right | done].
      * exists p. split; [by left | done].
    + intros [= <- <-]. exists p. split; [by left | done].
Qed.

Lemma firstRejection_is_Some {A} (ps : list (Promise A)) p e :
  p ∈ ps -> result p = Throw e -> is_Some (firstRejection ps).
Proof.
  induction 1 as [p ps|p q ps _ IH]; intros Hp; simpl.
  - rewrite Hp. destruct (firstRejection ps) as [[t' e']|]; [|by eexists].
    destruct (t' <? settledAt p)%nat; by eexists.
  - destruct (IH Hp) as [[t' e'] Hrest]. rewrite Hrest.
    destruct (result q); [by eexists|].
    destruct (t' <? settledAt q)%nat; by eexists.
Qed.

Lemma parentPromise_rejected st p e :
  result (parentPromise st p) = Throw e <-> listRejected st p e.
Proof.
  unfold parentPromise, promiseThen, listRejected. simpl.
  destruct (result _); split; congruence.
Qed.

Lemma parentPromise_fulfilled st p :
  listFulfilled st p ->
  result (parentPromise st p)
  = Return (List.filter filterOutUndefinedCluster (recordsOfParent st p)).
Proof.
  intros [response H].
  unfold parentPromise, promiseThen, recordsOfParent. simpl. rewrite H.
  by destruct (clusters response).
Qed.

Lemma fulfilled_parents st ps :
  Forall (listFulfilled st) ps ->
  firstRejection (parentPromise st <$> ps) = None
  /\ fulfilledValues (parentPromise st <$> ps)
     = (fun p => List.filter filterOutUndefinedCluster (recordsOfParent st p)) <$> ps.
Proof.
  induction 1 as [|p ps Hp _ [IH1 IH2]]; [done|].
  rewrite !fmap_cons. cbn [firstRejection fulfilledValues].
  rewrite (parentPromise_fulfilled st p Hp), IH1, IH2. done.
Qed.

Lemma requests_join (ps : list string) :
  mjoin ((fun p => [ListClustersRequest p]) <$> ps) = ListClustersRequest <$> ps.
Proof. induction ps as [|p ps IH]; [done|]. rewrite !fmap_cons. simpl. by f_equal. Qed.

Lemma getClusters_run st :
  getClusters st
  = (match result (Promise_all (parentPromise st <$> gkeParents (this st))) with
     | Return css => Return (concat css)
     | Throw e => Throw e
     end,
     addTrace st (ListClustersRequest <$> gkeParents (this st))).
Proof.
  unfold getClusters. unfold bind at 1. unfold getThis at 1.
  unfold bind at 1.
  rewrite (mapM_run _ parentPromise (fun p => [ListClustersRequest p]));
    [|reflexivity|reflexivity].
  rewrite requests_join. unfold bind, await, ret.
  by destruct (result _).
Qed.

(** ** One refresh cycle *)

Lemma all_val (cs : list (Nullable ICluster)) :
  Forall (fun c => filterOutUndefinedCluster c = true) cs -> cs = val <$> unwrap cs.
Proof.
  induction 1 as [|c cs Hc _ IH]; [done|].
  destruct c; try discriminate. unfold unwrap in *. simpl. by f_equal.
Qed.

Lemma filter_all (cs : list (Nullable ICluster)) :
  Forall (fun c => filterOutUndefinedCluster c = true)
    (List.filter filterOutUndefinedCluster cs).
Proof.
  induction cs as [|c cs IH]; [constructor|].
  simpl. destruct (filterOutUndefinedCluster c) eqn:Hc; [by constructor | done].
Qed.

Lemma concat_filter_all (st : State) (ps : list string) :
  Forall (fun c => filterOutUndefinedCluster c = true)
    (concat ((fun p => List.filter filterOutUndefinedCluster (recordsOfParent st p))
               <$> ps)).
Proof.
  induction ps as [|p ps IH]; [constructor|].
  rewrite fmap_cons. simpl. apply Forall_app. split; [apply filter_all | exact IH].
Qed.

Lemma resources_of_parents (st : State) (ps : list string) :
  mappedEntities
    (concat ((fun p => List.filter filterOutUndefinedCluster (recordsOfParent st p))
               <$> ps))
  = mjoin ((fun p => mappedEntities (recordsOfParent st p)) <$> ps).
Proof.
  induction ps as [|p ps IH]; [done|].
  rewrite !fmap_cons. simpl.
  by rewrite mappedEntities_app, mappedEntities_filter, IH.
Qed.

Lemma callApplyMutation_run st conn m :
  connection (this st) = Some conn ->
  callApplyMutation m st
  = (applyMutation conn (cycle st) m, addTrace st [ApplyMutationCall m]).
Proof.
  intros Hconn. unfold callApplyMutation. unfold bind at 1. unfold getThis at 1.
  by rewrite Hconn.
Qed.

Lemma refresh_not_connected st :
  connection (this st) = None ->
  refresh st = (Throw (mkError "Error" "Not initialized"), st).
Proof.
  intros Hconn. unfold refresh. unfold bind at 1. unfold getThis at 1.
  by rewrite Hconn.
Qed.

Lemma refresh_rejected st conn t e :
  connection (this st) = Some conn ->
  firstRejection (parentPromise st <$> gkeParents (this st)) = Some (t, e) ->
  refresh st
  = (Return tt,
     addTrace st
       ([Log info "Discovering GKE clusters" None]
        ++ (ListClustersRequest <$> gkeParents (this st))
        ++ [Log error "error fetching GKE clusters" (Some e)])).
Proof.
  intros Hconn Hrej.
  unfold refresh. unfold bind at 1. unfold getThis at 1.
  rewrite Hconn. cbn [isSome negb].
  unfold bind at 1. unfold logger_info at 1. rewrite emit_run.
  unfold bind at 1. unfold tryCatch at 1. unfold bind at 1.
  rewrite getClusters_run.
  cbn [this addTrace cycle].
  change (parentPromise (addTrace st ?evs)) with (parentPromise st).
  unfold Promise_all. rewrite Hrej. cbn [rejected result].
  unfold bind, logger_error, ret. rewrite emit_run.
  by rewrite !addTrace_app.
Qed.

Lemma refresh_fulfilled st conn :
  connection (this st) = Some conn ->
  Forall (listFulfilled st) (gkeParents (this st)) ->
  exists warnings,
    Forall (fun ev => isLog warn ev = true) warnings
    /\ refresh st
       = (applyMutation conn (cycle st) (full (entitiesOfParents st)),
          addTrace st
            ([Log info "Discovering GKE clusters" None]
             ++ (ListClustersRequest <$> gkeParents (this st))
             ++ warnings
             ++ [Log info
                   ("Ingesting GKE clusters ["
                    +:+ join ", "
                          ((fun r => entityName (metadata (entity r)))
                             <$> entitiesOfParents st)
                    +:+ "]") None;
                 ApplyMutationCall (full (entitiesOfParents st))])).
Proof.
  intros Hconn Hall.
  destruct (fulfilled_parents st _ Hall) as [Hnone Hvalues].
  pose proof (concat_filter_all st (gkeParents (this st))) as Hval.
  pose proof (resources_of_parents st (gkeParents (this st))) as Hres.
  apply all_val in Hval.
  set (cs := concat _) in Hval, Hres.
  exists (mjoin ((fun c => warningsOf (val c)) <$> unwrap cs)).
  split; [apply warnings_all|].
  unfold refresh. unfold bind at 1. unfold getThis at 1.
  rewrite Hconn. cbn [isSome negb].
  unfold bind at 1. unfold logger_info at 1. rewrite emit_run.
  unfold bind at 1. unfold tryCatch at 1. unfold bind at 1.
  rewrite getClusters_run.
  cbn [this addTrace cycle].
  change (parentPromise (addTrace st ?evs)) with (parentPromise st).
  unfold Promise_all. rewrite Hnone. cbn [resolved result].
  rewrite Hvalues. fold cs. unfold ret at 1.
  rewrite Hval. unfold bind at 1.
  rewrite mapM_clusterToResource, omap_filter_defined, <- Hval, Hres.
  fold (entitiesOfParents st).
  unfold bind at 1. unfold logger_info. rewrite emit_run.
  rewrite (callApplyMutation_run _ conn) by exact Hconn.
  rewrite !addTrace_app. cbn [cycle addTrace].
  by rewrite <- !app_assoc.
Qed.

(** ** Properties of the mapping *)

(** The derived location string is never empty, whatever the record. *)
Lemma location_truthy v :
  truthyString (getProviderName +:+ ":" +:+ tpl v) = true.
Proof. reflexivity. Qed.

(** The entity of a record that passes the guard of [clusterToResource]. *)
Lemma mappedEntity_Some c e :
  mappedEntity (val c) = Some e ->
  truthy (name c) = true /\ truthy (selfLink c) = true
  /\ truthy (endpoint c) = true
  /\ locationKey e = getProviderName +:+ ":" +:+ tpl (location c)
  /\ annotations (metadata (entity e))
     = objectLiteral [
         (ANNOTATION_KUBERNETES_API_SERVER, "https://" +:+ tpl (endpoint c));
         (ANNOTATION_KUBERNETES_API_SERVER_CA,
            orElse (optChain (masterAuth c) clusterCaCertificate) "");
         (ANNOTATION_KUBERNETES_AUTH_PROVIDER, "google");
         ("backstage.io/managed-by-location", locationKey e);
         ("backstage.io/managed-by-origin-location", locationKey e)]
  /\ entityName (metadata (entity e)) = narrowed (name c)
  /\ kind (entity e) = "Resource".
Proof.
  cbv [mappedEntity clusterToResource deref bind ret].
  rewrite location_truthy.
  destruct (truthy (name c)), (truthy (selfLink c)), (truthy (endpoint c));
    cbn [negb orb fst]; try discriminate.
  intros [= <-]. cbn [locationKey entity metadata annotations entityName kind].
  repeat split.
Qed.

(** A record with the three guarded fields is mapped. *)
Lemma mappedEntity_is_Some c :
  truthy (name c) = true -> truthy (selfLink c) = true ->
  truthy (endpoint c) = true ->
  is_Some (mappedEntity (val c)) /\ warningsOf (val c) = [].
Proof.
  intros Hn Hs He.
  cbv [mappedEntity warningsOf clusterToResource deref bind ret].
  rewrite location_truthy, Hn, Hs, He. cbn [negb orb fst snd].
  split; [by eexists | done].
Qed.

(** A record without one of the three guarded fields is dropped with one
    warning. *)
Lemma mappedEntity_None c :
  truthy (name c) && truthy (selfLink c) && truthy (endpoint c) = false ->
  mappedEntity (val c) = None
  /\ exists msg, warningsOf (val c) = [Log warn msg None].
Proof.
  intros H.
  cbv [mappedEntity warningsOf clusterToResource deref bind ret].
  rewrite location_truthy.
  destruct (truthy (name c)), (truthy (selfLink c)), (truthy (endpoint c));
    try discriminate; cbn [negb orb fst snd]; (split; [done | by eexists]).
Qed.

Lemma narrowed_tpl v : truthy v = true -> tpl v = narrowed v.
Proof. by destruct v. Qed.

Lemma distinctKeys_ne :
  distinctKeys ->
  ANNOTATION_KUBERNETES_API_SERVER <> ANNOTATION_KUBERNETES_API_SERVER_CA
  /\ ANNOTATION_KUBERNETES_API_SERVER <> ANNOTATION_KUBERNETES_AUTH_PROVIDER
  /\ ANNOTATION_KUBERNETES_API_SERVER <> "backstage.io/managed-by-location"
  /\ ANNOTATION_KUBERNETES_API_SERVER <> "backstage.io/managed-by-origin-location"
  /\ ANNOTATION_KUBERNETES_API_SERVER_CA <> ANNOTATION_KUBERNETES_AUTH_PROVIDER
  /\ ANNOTATION_KUBERNETES_API_SERVER_CA <> "backstage.io/managed-by-location"
  /\ ANNOTATION_KUBERNETES_API_SERVER_CA <> "backstage.io/managed-by-origin-location"
  /\ ANNOTATION_KUBERNETES_AUTH_PROVIDER <> "backstage.io/managed-by-location"
  /\ ANNOTATION_KUBERNETES_AUTH_PROVIDER <> "backstage.io/managed-by-origin-location".
Proof.
  unfold distinctKeys. intros H.
  repeat match goal with
         | H : NoDup (_ :: _) |- _ => apply NoDup_cons in H as [? H]
         end.
  repeat match goal with
         | H : _ ∉ _ :: _ |- _ => apply not_elem_of_cons in H as [? H]
         end.
  repeat split; assumption.
Qed.

(** The five annotations of a literal whose keys are distinct. *)
Lemma annotations_lookup (v1 v2 v3 v4 v5 : string) :
  distinctKeys ->
  let o := objectLiteral [
    (ANNOTATION_KUBERNETES_API_SERVER, v1);
    (ANNOTATION_KUBERNETES_API_SERVER_CA, v2);
    (ANNOTATION_KUBERNETES_AUTH_PROVIDER, v3);
    ("backstage.io/managed-by-location", v4);
    ("backstage.io/managed-by-origin-location", v5)] in
  o !! ANNOTATION_KUBERNETES_API_SERVER = Some v1
  /\ o !! ANNOTATION_KUBERNETES_API_SERVER_CA = Some v2
  /\ o !! ANNOTATION_KUBERNETES_AUTH_PROVIDER = Some v3
  /\ o !! "backstage.io/managed-by-location" = Some v4
  /\ o !! "backstage.io/managed-by-origin-location" = Some v5.
Proof.
  intros H. apply distinctKeys_ne in H.
  destruct H as (? & ? & ? & ? & ? & ? & ? & ? & ?).
  cbv [objectLiteral foldl fst snd].
  repeat split.
  - by rewrite !lookup_insert_ne, lookup_insert_eq by congruence.
  - by rewrite !lookup_insert_ne, lookup_insert_eq by congruence.
  - by rewrite !lookup_insert_ne, lookup_insert_eq by congruence.
  - by rewrite lookup_insert_ne, lookup_insert_eq by discriminate.
  - by rewrite lookup_insert_eq.
Qed.

Lemma firstRejection_None_inv st ps :
  firstRejection (parentPromise st <$> ps) = None -> Forall (listFulfilled st) ps.
Proof.
  induction ps as [|p ps IH]; [constructor|].
  rewrite fmap_cons. cbn [firstRejection].
  destruct (result (parentPromise st p)) as [a|e] eqn:Hp.
  - intros H. constructor; [|by apply IH].
    unfold parentPromise, promiseThen in Hp. simpl in Hp. unfold listFulfilled.
    destruct (result _) as [response|]; [by eexists | discriminate].
  - destruct (firstRejection _) as [[t e']|]; [|discriminate].
    by destruct (t <? _)%nat.
Qed.

Lemma rejection_of_parent st ps t e :
  firstRejection (parentPromise st <$> ps) = Some (t, e) ->
  exists p, p ∈ ps /\ listRejected st p e.
Proof.
  intros H. apply firstRejection_Some in H as (q & Hq & Hr & _).
  apply list_elem_of_fmap in Hq as (p & -> & Hp).
  exists p. split; [done|]. by apply parentPromise_rejected.
Qed.

Lemma rejected_parent st ps p e :
  p ∈ ps -> listRejected st p e ->
  exists t e', firstRejection (parentPromise st <$> ps) = Some (t, e').
Proof.
  intros Hp He.
  destruct (firstRejection_is_Some (parentPromise st <$> ps) (parentPromise st p) e)
    as [[t e'] H]; [by apply list_elem_of_fmap_2 | by apply parentPromise_rejected |].
  eauto.
Qed.

Lemma entitiesOfParents_concat st :
  entitiesOfParents st
  = mappedEntities (concat (recordsOfParent st <$> gkeParents (this st))).
Proof.
  unfold entitiesOfParents.
  induction (gkeParents (this st)) as [|p ps IH]; [done|].
  rewrite !fmap_cons. simpl. by rewrite mappedEntities_app, IH.
Qed.

Lemma unwrap_concat_filter st ps :
  concat ((fun p => List.filter filterOutUndefinedCluster (recordsOfParent st p)) <$> ps)
  = val <$> unwrap (concat (recordsOfParent st <$> ps)).
Proof.
  induction ps as [|p ps IH]; [done|].
  rewrite !fmap_cons. simpl. unfold unwrap in *.
  by rewrite omap_app, fmap_app, IH, filter_unwrap.
Qed.

(** A cycle changes nothing of the state but the trace, which it extends. *)
Lemma refresh_frame st : exists evs, (refresh st).2 = addTrace st evs.
Proof.
  destruct (connection (this st)) as [conn|] eqn:Hconn.
  - destruct (firstRejection (parentPromise st <$> gkeParents (this st)))
      as [[t e]|] eqn:Hrej.
    + rewrite (refresh_rejected st conn t e Hconn Hrej). by eexists.
    + apply firstRejection_None_inv in Hrej.
      destruct (refresh_fulfilled st conn Hconn Hrej) as (ws & _ & ->).
      by eexists.
  - rewrite (refresh_not_connected st Hconn). exists []. by rewrite addTrace_nil.
Qed.

Lemma scheduledTask_returns st :
  exists evs, scheduledTask st = (Return tt, addTrace st evs).
Proof.
  unfold scheduledTask, tryCatch.
  destruct (refresh_frame st) as [evs Hevs].
  destruct (refresh st) as [[[]|e] st']; cbn [snd] in Hevs; subst st'.
  - by eexists.
  - unfold logger_error_object. rewrite emit_run, addTrace_app. by eexists.
Qed.

Lemma TaskRunner_run_completes n id st :
  exists st',
    TaskRunner_run n id scheduledTask st = (Return tt, st')
    /\ cycle st' = (n + cycle st)%nat
    /\ this st' = this st.
Proof.
  revert st. induction n as [|n IH]; intros st.
  - by exists st.
  - cbn [TaskRunner_run]. unfold bind at 1.
    destruct (scheduledTask_returns st) as [evs ->].
    unfold bind at 1. unfold nextCycle at 1.
    match goal with |- context [TaskRunner_run n id scheduledTask ?s] =>
      destruct (IH s) as (st' & -> & Hcycle & Hthis) end.
    exists st'. split; [done|]. rewrite Hcycle, Hthis. cbn [cycle this addTrace].
    split; [lia | done].
Qed.

Lemma connect_run conn st :
  exists st',
    connect conn st = (Return tt, st')
    /\ connection (this st') = Some conn
    /\ cycle st' = (ticks (taskRunner (this st)) + cycle st)%nat.
Proof.
  unfold connect. unfold bind at 1. unfold scheduleFn, createScheduleFn.
  unfold bind at 1. unfold getThis at 1. cbn [this taskRunner].
  match goal with |- context [TaskRunner_run ?n ?id scheduledTask ?s] =>
    destruct (TaskRunner_run_completes n id s) as (st' & -> & Hcycle & Hthis) end.
  exists st'. split; [done|]. by rewrite Hcycle, Hthis.
Qed.

Lemma mappedEntities_unwrap cs :
  mappedEntities (val <$> unwrap cs) = mappedEntities cs.
Proof. by rewrite <- filter_unwrap, mappedEntities_filter. Qed.

(** The fields of a mapped entity that do not depend on the record, and
    its name. *)
Lemma mappedEntity_shape c e :
  mappedEntity (val c) = Some e ->
  apiVersion (entity e) = "backstage.io/v1alpha1"
  /\ kind (entity e) = "Resource"
  /\ namespace (metadata (entity e)) = "default"
  /\ type (spec (entity e)) = "kubernetes-cluster"
  /\ owner (spec (entity e)) = "unknown"
  /\ name c = val (entityName (metadata (entity e)))
  /\ entityName (metadata (entity e)) <> "".
Proof.
  cbv [mappedEntity clusterToResource deref bind ret].
  rewrite location_truthy.
  destruct (name c) as [| |n] eqn:Hn; cbn [truthy negb orb fst]; try discriminate.
  destruct (truthyString n) eqn:Hne, (truthy (selfLink c)), (truthy (endpoint c));
    cbn [negb orb fst]; try discriminate.
  intros [= <-]. cbn. repeat split.
  intros ->. discriminate.
Qed.

Lemma entityFor_mapped c e : mappedEntity (val c) = Some e -> entityFor c e.
Proof.
  intros Hmap.
  pose proof (mappedEntity_Some c e Hmap) as (_ & _ & He & Hkey & Hann & Hname & Hkind).
  pose proof (mappedEntity_shape c e Hmap) as (_ & _ & Hns & Htype & Howner & _).
  repeat split; try assumption.
  intros Hkeys. rewrite Hann, <- (narrowed_tpl _ He).
  by apply (annotations_lookup _ _ _ _ _ Hkeys).
Qed.

(** The entities mapped from a list of records answer, one for one and in
    order, to the records that pass the guard. *)
Lemma passesGuard_mapped (cs : list ICluster) :
  Forall2 entityFor (List.filter passesGuard cs) (mappedEntities (val <$> cs)).
Proof.
  induction cs as [|c cs IH]; [constructor|].
  rewrite fmap_cons, mappedEntities_cons. cbn [List.filter].
  destruct (passesGuard c) eqn:Hc; unfold passesGuard in Hc.
  - apply andb_true_iff in Hc as [Hc He]. apply andb_true_iff in Hc as [Hn Hs].
    destruct (mappedEntity_is_Some c Hn Hs He) as [[e Hmap] _]. rewrite Hmap.
    constructor; [by apply entityFor_mapped | exact IH].
  - destruct (mappedEntity_None c Hc) as [-> _]. exact IH.
Qed.

Lemma snapshot_entityFor st :
  Forall2 entityFor (List.filter passesGuard (upstreamRecords st))
    (entitiesOfParents st).
Proof.
  rewrite entitiesOfParents_concat, <- mappedEntities_unwrap.
  apply passesGuard_mapped.
Qed.

(** Where no record lacks only its location, the guard lets through the
    complete records and no other. *)
Lemma filter_required (cs : list ICluster) :
  Forall (fun c => passesGuard c = true -> truthy (location c) = true) cs ->
  List.filter hasRequiredFields cs = List.filter passesGuard cs.
Proof.
  induction 1 as [|c cs Hc _ IH]; [done|].
  cbn [List.filter]. rewrite IH.
  assert (hasRequiredFields c = passesGuard c) as ->; [|done].
  unfold hasRequiredFields, passesGuard in *.
  destruct (truthy (name c)), (truthy (selfLink c)), (truthy (endpoint c)),
    (truthy (location c)); try reflexivity.
  by discriminate Hc.
Qed.

(** The sink calls of a cycle whose list calls are all fulfilled. *)
Lemma refresh_fulfilled_sink st conn :
  connection (this st) = Some conn ->
  Forall (listFulfilled st) (gkeParents (this st)) ->
  sinkCalls (trace (refresh st).2)
  = sinkCalls (trace st) ++ [full (entitiesOfParents st)].
Proof.
  intros Hconn Hall.
  destruct (refresh_fulfilled st conn Hconn Hall) as (ws & Hws & ->).
  cbn [snd addTrace trace].
  by rewrite !sinkCalls_app, sinkCalls_requests, (sinkCalls_warnings ws Hws).
Qed.

(** ** The properties *)

(** C1: an entity is constructed exactly when the record has all four of
    name, selfLink, location and endpoint.  The code decides otherwise: it
    constructs an entity exactly when name, selfLink and endpoint are
    non-empty, because its guard tests the derived location string, which
    is never empty.  A record without one of those three is dropped with
    a warning and no exception; a record without a location is ingested
    under the location key [gcp-gke:undefined], with no warning. *)
Theorem C1_location_not_checked :
  (forall c st,
      (exists e, (clusterToResource (val c) st).1 = Return (Some e))
      <-> truthy (name c) && truthy (selfLink c) && truthy (endpoint c) = true)
  /\ (forall c st,
        truthy (name c) && truthy (selfLink c) && truthy (endpoint c) = false ->
        exists msg,
          clusterToResource (val c) st
          = (Return None, addTrace st [Log warn msg None]))
  /\ hasRequiredFields clusterWithoutLocation = false
  /\ forall st,
      exists e,
        clusterToResource (val clusterWithoutLocation) st = (Return (Some e), st)
        /\ locationKey e = "gcp-gke:undefined".
Proof.
  split; [|split; [|split; [reflexivity|]]].
  - intros c st. rewrite clusterToResource_val. cbn [fst]. split.
    + intros [e [= He]]. apply mappedEntity_Some in He as (-> & -> & -> & _).
      reflexivity.
    + intros H. apply andb_true_iff in H as [H He].
      apply andb_true_iff in H as [Hn Hs].
      destruct (mappedEntity_is_Some c Hn Hs He) as [[e ->] _]. by exists e.
  - intros c st H. destruct (mappedEntity_None c H) as [Hnone [msg Hmsg]].
    exists msg. by rewrite clusterToResource_val, Hnone, Hmsg.
  - intros st. rewrite clusterToResource_val.
    destruct (mappedEntity_is_Some clusterWithoutLocation) as [[e He] Hw];
      [reflexivity..|].
    exists e. rewrite He, Hw, addTrace_nil. split; [done|].
    by apply mappedEntity_Some in He as (_ & _ & _ & -> & _).
Qed.

(** C2: when the list call of some parent rejects, refresh logs the
    rejection that [Promise.all] reports (the reason of one of the
    rejected calls), submits nothing to the sink and returns normally. *)
Theorem C2_refresh_aborts_on_rejection st conn p e0 :
  connection (this st) = Some conn ->
  p ∈ gkeParents (this st) ->
  listRejected st p e0 ->
  exists e p',
    p' ∈ gkeParents (this st) /\ listRejected st p' e
    /\ refresh st
       = (Return tt,
          addTrace st
            ([Log info "Discovering GKE clusters" None]
             ++ (ListClustersRequest <$> gkeParents (this st))
             ++ [Log error "error fetching GKE clusters" (Some e)]))
    /\ sinkCalls (trace (refresh st).2) = sinkCalls (trace st).
Proof.
  intros Hconn Hp He0.
  destruct (rejected_parent st _ p e0 Hp He0) as (t & e & Hrej).
  destruct (rejection_of_parent st _ t e Hrej) as (p' & Hp' & He).
  exists e, p'. rewrite (refresh_rejected st conn t e Hconn Hrej).
  repeat split; try done.
  cbn [snd addTrace trace].
  rewrite !sinkCalls_app, sinkCalls_requests. simpl. by rewrite app_nil_r.
Qed.

(** C3: a record with all four required fields is mapped to exactly one
    entity, whose locationKey is "gcp-gke:<location>" and whose API-server
    annotation is "https://<endpoint>"; in the snapshot that refresh
    submits, that entity stands where the record stood. *)
Theorem C3_complete_record_mapped c :
  distinctKeys ->
  hasRequiredFields c = true ->
  exists e,
    (forall st, clusterToResource (val c) st = (Return (Some e), st))
    /\ getProviderName = "gcp-gke"
    /\ locationKey e = getProviderName +:+ ":" +:+ narrowed (location c)
    /\ annotations (metadata (entity e)) !! ANNOTATION_KUBERNETES_API_SERVER
       = Some ("https://" +:+ narrowed (endpoint c))
    /\ forall st conn before after,
        connection (this st) = Some conn ->
        Forall (listFulfilled st) (gkeParents (this st)) ->
        concat (recordsOfParent st <$> gkeParents (this st))
        = before ++ val c :: after ->
        sinkCalls (trace (refresh st).2)
        = sinkCalls (trace st)
          ++ [full (mappedEntities before ++ e :: mappedEntities after)].
Proof.
  intros Hkeys Hc. unfold hasRequiredFields in Hc.
  apply andb_true_iff in Hc as [Hc He]. apply andb_true_iff in Hc as [Hc Hl].
  apply andb_true_iff in Hc as [Hn Hs].
  destruct (mappedEntity_is_Some c Hn Hs He) as [[e Hmap] Hw].
  exists e.
  pose proof (mappedEntity_Some c e Hmap) as (_ & _ & _ & Hkey & Hann & _).
  split; [|split; [reflexivity|split; [|split]]].
  - intros st. by rewrite clusterToResource_val, Hmap, Hw, addTrace_nil.
  - by rewrite Hkey, (narrowed_tpl _ Hl).
  - rewrite Hann, <- (narrowed_tpl _ He).
    by apply (annotations_lookup _ _ _ _ _ Hkeys).
  - intros st conn before after Hconn Hall Hrecords.
    destruct (refresh_fulfilled st conn Hconn Hall) as (ws & Hws & ->).
    cbn [snd addTrace trace].
    rewrite !sinkCalls_app, sinkCalls_requests, (sinkCalls_warnings ws Hws).
    rewrite entitiesOfParents_concat, Hrecords, mappedEntities_app.
    by rewrite mappedEntities_cons, Hmap.
Qed.

(** C4: when every list call is fulfilled, refresh makes exactly one sink
    call, a full mutation whose entities are the union over the parents of
    the valid mapped entities.  The one call and its type hold as stated,
    and the entities answer one for one, in the order of the parents and
    of their records, to the records that have a name, a self link and an
    endpoint.  Those are the complete records when no record lacks only
    its location.  A record that lacks only its location passes the guard
    of clusterToResource (see C1), so its entity is in the snapshot too:
    for [locationMissing] no record is complete and yet one entity, of
    location key [gcp-gke:undefined], is submitted. *)
Theorem C4_one_full_mutation :
  (forall st conn,
      connection (this st) = Some conn ->
      Forall (listFulfilled st) (gkeParents (this st)) ->
      exists snapshot,
        sinkCalls (trace (refresh st).2) = sinkCalls (trace st) ++ [full snapshot]
        /\ mutationType (full snapshot) = "full"
        /\ Forall2 entityFor (List.filter passesGuard (upstreamRecords st)) snapshot
        /\ (Forall (fun c => passesGuard c = true -> truthy (location c) = true)
              (upstreamRecords st) ->
            Forall2 entityFor
              (List.filter hasRequiredFields (upstreamRecords st)) snapshot))
  /\ List.filter hasRequiredFields (upstreamRecords locationMissing) = []
  /\ exists e,
      sinkCalls (trace (refresh locationMissing).2) = [full [e]]
      /\ locationKey e = "gcp-gke:undefined".
Proof.
  split; [|split; [reflexivity|]].
  - intros st conn Hconn Hall. exists (entitiesOfParents st).
    split; [by apply (refresh_fulfilled_sink st conn)|]. split; [done|].
    split; [apply snapshot_entityFor|].
    intros Hloc. rewrite (filter_required _ Hloc). apply snapshot_entityFor.
  - assert (Forall (listFulfilled locationMissing) (gkeParents (this locationMissing)))
      as Hall by (repeat (constructor; [eexists; reflexivity|]); constructor).
    rewrite (refresh_fulfilled_sink locationMissing acceptingSink eq_refl Hall).
    pose proof (snapshot_entityFor locationMissing) as Hsnap.
    change (List.filter passesGuard (upstreamRecords locationMissing))
      with [clusterWithoutLocation] in Hsnap.
    apply Forall2_cons_inv_l in Hsnap as (e & es & Hce & Hrest & Hsnap).
    apply Forall2_nil_inv_l in Hrest as ->. rewrite Hsnap.
    exists e. split; [done|]. by destruct Hce as (-> & _).
Qed.

(** C5: two refresh cycles that see the same list-call results, whatever
    happened before them, submit the same mutations to the sink: when the
    list calls are fulfilled each submits one full mutation with the same
    entities, which answer one for one to the upstream records that pass
    the guard; when a list call rejects neither submits anything. *)
Theorem C5_refresh_deterministic st1 st2 conn1 conn2 :
  connection (this st1) = Some conn1 ->
  connection (this st2) = Some conn2 ->
  gkeParents (this st1) = gkeParents (this st2) ->
  (forall p, p ∈ gkeParents (this st1) ->
     result (listClusters (clusterManagerClient (this st1)) (cycle st1) p)
     = result (listClusters (clusterManagerClient (this st2)) (cycle st2) p)) ->
  exists submitted,
    sinkCalls (trace (refresh st1).2) = sinkCalls (trace st1) ++ submitted
    /\ sinkCalls (trace (refresh st2).2) = sinkCalls (trace st2) ++ submitted
    /\ (Forall (listFulfilled st1) (gkeParents (this st1)) ->
        exists snapshot,
          submitted = [full snapshot]
          /\ Forall2 entityFor (List.filter passesGuard (upstreamRecords st1)) snapshot)
    /\ (forall p e,
          p ∈ gkeParents (this st1) -> listRejected st1 p e -> submitted = []).
Proof.
  intros Hc1 Hc2 Hparents Hsame.
  destruct (firstRejection (parentPromise st1 <$> gkeParents (this st1)))
    as [[t e]|] eqn:Hrej.
  - destruct (rejection_of_parent st1 _ t e Hrej) as (p & Hp & He).
    assert (listRejected st2 p e) as He2.
    { unfold listRejected in *. by rewrite <- (Hsame p Hp). }
    pose proof Hp as Hp2. rewrite Hparents in Hp2.
    destruct (rejected_parent st2 _ p e Hp2 He2) as (t2 & e2 & Hrej2).
    exists []. rewrite (refresh_rejected st1 conn1 t e Hc1 Hrej).
    rewrite (refresh_rejected st2 conn2 t2 e2 Hc2 Hrej2).
    cbn [snd addTrace trace].
    rewrite !sinkCalls_app, !sinkCalls_requests. simpl. rewrite !app_nil_r.
    split; [done|]. split; [done|]. split; [|done].
    intros Hall. rewrite Forall_forall in Hall.
    destruct (Hall p Hp) as [r Hr]. unfold listRejected in He. congruence.
  - apply firstRejection_None_inv in Hrej as Hall1.
    assert (Forall (listFulfilled st2) (gkeParents (this st2))) as Hall2.
    { rewrite <- Hparents. apply Forall_forall. intros p Hp.
      rewrite Forall_forall in Hall1. destruct (Hall1 p Hp) as [r Hr].
      exists r. by rewrite <- (Hsame p Hp). }
    assert (entitiesOfParents st2 = entitiesOfParents st1) as Hents.
    { unfold entitiesOfParents. rewrite <- Hparents. f_equal.
      apply list_fmap_ext. intros _ p Hp%list_elem_of_lookup_2.
      unfold recordsOfParent. by rewrite (Hsame p Hp). }
    exists [full (entitiesOfParents st1)].
    rewrite (refresh_fulfilled_sink st1 conn1 Hc1 Hall1).
    rewrite (refresh_fulfilled_sink st2 conn2 Hc2 Hall2), Hents.
    split; [done|]. split; [done|]. split.
    + intros _. eexists. split; [reflexivity | apply snapshot_entityFor].
    + intros p e Hp He. rewrite Forall_forall in Hall1.
      destruct (Hall1 p Hp) as [r Hr]. unfold listRejected in He. congruence.
Qed.

(** C6: refresh before connect throws the error "Not initialized" to its
    caller, and makes no sink call and no cloud API call. *)
Theorem C6_refresh_before_connect st :
  connection (this st) = None ->
  refresh st = (Throw (mkError "Error" "Not initialized"), st)
  /\ sinkCalls (trace (refresh st).2) = sinkCalls (trace st)
  /\ apiCalls (trace (refresh st).2) = apiCalls (trace st).
Proof. intros Hconn. by rewrite (refresh_not_connected st Hconn). Qed.

(** C7: the function given to the task runner catches whatever refresh
    throws and logs it, so an invocation never throws; a schedule that an
    escaping exception would end therefore runs all of its ticks, and
    connect, which starts it, returns normally. *)
Theorem C7_scheduled_task_never_throws st :
  (exists evs, scheduledTask st = (Return tt, addTrace st evs))
  /\ (forall e st1,
        refresh st = (Throw e, st1) ->
        scheduledTask st = (Return tt, addTrace st1 [LogObject error e]))
  /\ (forall n id,
        exists st',
          TaskRunner_run n id scheduledTask st = (Return tt, st')
          /\ cycle st' = (n + cycle st)%nat)
  /\ (forall conn,
        exists st',
          connect conn st = (Return tt, st')
          /\ connection (this st') = Some conn
          /\ cycle st' = (ticks (taskRunner (this st)) + cycle st)%nat).
Proof.
  split; [apply scheduledTask_returns|split; [|split]].
  - intros e st1 H. unfold scheduledTask, tryCatch. by rewrite H.
  - intros n id.
    destruct (TaskRunner_run_completes n id st) as (st' & H & Hcycle & _).
    by exists st'.
  - intros conn. apply connect_run.
Qed.

(** C8: what getClusters returns is exactly the non-null, non-undefined
    records of the responses, in order; so every record handed to
    clusterToResource is an object, and the mapping does not throw. *)
Theorem C8_null_records_dropped st cs st' :
  getClusters st = (Return cs, st') ->
  cs = val <$> unwrap (concat (recordsOfParent st <$> gkeParents (this st)))
  /\ Forall (fun c => filterOutUndefinedCluster c = true) cs
  /\ exists mapped st'', mapM clusterToResource cs st' = (Return mapped, st'').
Proof.
  rewrite getClusters_run. unfold Promise_all.
  destruct (firstRejection _) as [[t e]|] eqn:Hrej; [discriminate|].
  apply firstRejection_None_inv in Hrej.
  destruct (fulfilled_parents st _ Hrej) as [_ ->].
  cbn [resolved result]. intros [= <- <-].
  split; [apply unwrap_concat_filter|]. split; [apply concat_filter_all|].
  rewrite unwrap_concat_filter, mapM_clusterToResource. by eexists _, _.
Qed.

(** C10: a fulfilled response whose clusters field is null or undefined
    counts as an empty list: getClusters returns, and the snapshot holds
    the entities of the other parents only. *)
Theorem C10_missing_clusters_is_empty st conn before p after response :
  connection (this st) = Some conn ->
  Forall (listFulfilled st) (gkeParents (this st)) ->
  gkeParents (this st) = before ++ p :: after ->
  result (listClusters (clusterManagerClient (this st)) (cycle st) p)
  = Return response ->
  clusters response = null \/ clusters response = undefined ->
  recordsOfParent st p = []
  /\ (exists cs st', getClusters st = (Return cs, st'))
  /\ sinkCalls (trace (refresh st).2)
     = sinkCalls (trace st)
       ++ [full (mjoin ((fun q => mappedEntities (recordsOfParent st q)) <$> before)
                 ++ mjoin ((fun q => mappedEntities (recordsOfParent st q)) <$> after))].
Proof.
  intros Hconn Hall Hparents Hp Hnull.
  assert (recordsOfParent st p = []) as Hrec.
  { unfold recordsOfParent. rewrite Hp. by destruct Hnull as [-> | ->]. }
  split; [exact Hrec|]. split.
  - rewrite getClusters_run. unfold Promise_all.
    destruct (fulfilled_parents st _ Hall) as [-> _]. by eexists _, _.
  - destruct (refresh_fulfilled st conn Hconn Hall) as (ws & Hws & ->).
    cbn [snd addTrace trace].
    rewrite !sinkCalls_app, sinkCalls_requests, (sinkCalls_warnings ws Hws).
    unfold entitiesOfParents. rewrite Hparents, fmap_app, fmap_cons.
    rewrite join_app. simpl. by rewrite Hrec.
Qed.

(** C9: every entity that clusterToResource produces has the
    auth-provider annotation "google", both managed-by annotations equal to
    its locationKey, and as CA annotation the cluster's
    masterAuth.clusterCaCertificate when present and the empty string when
    masterAuth or the certificate is absent. *)
Theorem C9_fixed_annotations c e st st' :
  distinctKeys ->
  clusterToResource (val c) st = (Return (Some e), st') ->
  let a := annotations (metadata (entity e)) in
  a !! ANNOTATION_KUBERNETES_AUTH_PROVIDER = Some "google"
  /\ a !! "backstage.io/managed-by-location" = Some (locationKey e)
  /\ a !! "backstage.io/managed-by-origin-location" = Some (locationKey e)
  /\ a !! ANNOTATION_KUBERNETES_API_SERVER_CA
     = Some match masterAuth c with
            | val auth =>
                match clusterCaCertificate auth with
                | val cert => cert
                | undefined | null => ""
                end
            | undefined | null => ""
            end.
Proof.
  intros Hkeys. rewrite clusterToResource_val. intros [= Hmap _].
  apply mappedEntity_Some in Hmap as (_ & _ & _ & _ & Hann & _).
  cbn zeta. rewrite Hann.
  destruct (annotations_lookup
              ("https://" +:+ tpl (endpoint c))
              (orElse (optChain (masterAuth c) clusterCaCertificate) "")
              "google" (locationKey e) (locationKey e) Hkeys)
    as (_ & Hca & Hauth & Hloc & Horigin).
  repeat split; try assumption.
  rewrite Hca. f_equal.
  destruct (masterAuth c) as [| |auth]; try reflexivity.
  cbn [optChain].
  destruct (clusterCaCertificate auth) as [| |cert]; try reflexivity.
  cbn [orElse]. unfold truthyString.
  by destruct (String.eqb_spec cert "") as [->|].
Qed.

(** ** Further lemmas on runs *)

Lemma apiCalls_app tr tr' : apiCalls (tr ++ tr') = apiCalls tr ++ apiCalls tr'.
Proof.
  induction tr as [|ev tr IH]; [done|].
  destruct ev; simpl; by rewrite ?IH.
Qed.

Lemma apiCalls_requests ps : apiCalls (ListClustersRequest <$> ps) = ps.
Proof. induction ps as [|p ps IH]; [done|]. simpl. f_equal. exact IH. Qed.

Lemma apiCalls_warnings evs :
  Forall (fun ev => isLog warn ev = true) evs -> apiCalls evs = [].
Proof.
  induction 1 as [|ev evs Hev _ IH]; [done|].
  destruct ev; simpl in *; try done; discriminate.
Qed.

Lemma unwrap_val cs : unwrap (val <$> cs) = cs.
Proof. induction cs as [|c cs IH]; [done|]. rewrite fmap_cons. simpl. by f_equal. Qed.

(** Each record is either mapped or warned about, not both. *)
Lemma mapped_or_warned (cs : list ICluster) :
  (length (mjoin ((fun c => warningsOf (val c)) <$> cs))
   + length (mappedEntities (val <$> cs)) = length cs)%nat.
Proof.
  induction cs as [|c cs IH]; [done|].
  rewrite !fmap_cons, mappedEntities_cons. cbn [mjoin list_join].
  rewrite length_app. cbn [length].
  destruct (truthy (name c) && truthy (selfLink c) && truthy (endpoint c)) eqn:Hc.
  - apply andb_true_iff in Hc as [Hc He]. apply andb_true_iff in Hc as [Hn Hs].
    destruct (mappedEntity_is_Some c Hn Hs He) as [[e ->] ->].
    cbn [length]. rewrite Nat.add_succ_r. exact (f_equal S IH).
  - destruct (mappedEntity_None c Hc) as [-> [msg ->]]. exact (f_equal S IH).
Qed.

(** The trace of a cycle whose list calls are all fulfilled, in full. *)
Lemma refresh_fulfilled_trace st conn :
  connection (this st) = Some conn ->
  Forall (listFulfilled st) (gkeParents (this st)) ->
  refresh st
  = (applyMutation conn (cycle st) (full (entitiesOfParents st)),
     addTrace st
       ([Log info "Discovering GKE clusters" None]
        ++ (ListClustersRequest <$> gkeParents (this st))
        ++ mjoin ((fun c => warningsOf (val c))
                    <$> unwrap (concat (recordsOfParent st <$> gkeParents (this st))))
        ++ [Log info
              ("Ingesting GKE clusters ["
               +:+ join ", "
                     ((fun r => entityName (metadata (entity r)))
                        <$> entitiesOfParents st)
               +:+ "]") None;
            ApplyMutationCall (full (entitiesOfParents st))])).
Proof.
  intros Hconn Hall.
  destruct (fulfilled_parents st _ Hall) as [Hnone Hvalues].
  pose proof (resources_of_parents st (gkeParents (this st))) as Hres.
  unfold refresh. unfold bind at 1. unfold getThis at 1.
  rewrite Hconn. cbn [isSome negb].
  unfold bind at 1. unfold logger_info at 1. rewrite emit_run.
  unfold bind at 1. unfold tryCatch at 1. unfold bind at 1.
  rewrite getClusters_run.
  cbn [this addTrace cycle].
  change (parentPromise (addTrace st ?evs)) with (parentPromise st).
  unfold Promise_all. rewrite Hnone. cbn [resolved result].
  rewrite Hvalues. unfold ret at 1.
  rewrite unwrap_concat_filter. unfold bind at 1.
  rewrite mapM_clusterToResource, omap_filter_defined.
  rewrite <- unwrap_concat_filter, Hres.
  fold (entitiesOfParents st).
  unfold bind at 1. unfold logger_info. rewrite emit_run.
  rewrite (callApplyMutation_run _ conn) by exact Hconn.
  rewrite !addTrace_app. cbn [cycle addTrace].
  by rewrite <- !app_assoc.
Qed.

Lemma allFulfilled_true st :
  allFulfilled st = true <-> Forall (listFulfilled st) (gkeParents (this st)).
Proof.
  unfold allFulfilled, listFulfilled.
  induction (gkeParents (this st)) as [|p ps IH]; [by split|].
  cbn [forallb]. rewrite andb_true_iff, IH. split.
  - intros [Hp Hps]. constructor; [|done].
    destruct (result _) as [r|]; [by exists r | discriminate].
  - intros H. inversion H as [|? ? [r Hr] Hps]; subst.
    by rewrite Hr.
Qed.

Lemma allFulfilled_false st :
  allFulfilled st = false ->
  exists t e, firstRejection (parentPromise st <$> gkeParents (this st)) = Some (t, e).
Proof.
  intros H.
  destruct (firstRejection _) as [[t e]|] eqn:Hrej; [by eauto|].
  apply firstRejection_None_inv, allFulfilled_true in Hrej. congruence.
Qed.

Lemma cycleSubmission_ext st st' :
  this st = this st' -> cycle st = cycle st' ->
  cycleSubmission st = cycleSubmission st'.
Proof.
  destruct st, st'. cbn [this cycle]. intros -> ->. reflexivity.
Qed.

(** What one connected cycle adds to the trace: a request per parent, and
    the snapshot when every list call is fulfilled. *)
Lemma refresh_connected st conn :
  connection (this st) = Some conn ->
  exists evs,
    (refresh st).2 = addTrace st evs
    /\ sinkCalls evs = cycleSubmission st
    /\ apiCalls evs = gkeParents (this st).
Proof.
  intros Hconn. unfold cycleSubmission.
  destruct (allFulfilled st) eqn:Hall.
  - apply allFulfilled_true in Hall.
    rewrite (refresh_fulfilled_trace st conn Hconn Hall).
    eexists. split; [reflexivity|].
    pose proof (warnings_all
      (unwrap (concat (recordsOfParent st <$> gkeParents (this st))))) as Hws.
    rewrite !sinkCalls_app, !apiCalls_app, sinkCalls_requests, apiCalls_requests.
    rewrite (sinkCalls_warnings _ Hws), (apiCalls_warnings _ Hws).
    split; [done|]. simpl. by rewrite app_nil_r.
  - destruct (allFulfilled_false st Hall) as (t & e & Hrej).
    rewrite (refresh_rejected st conn t e Hconn Hrej).
    eexists. split; [reflexivity|].
    rewrite !sinkCalls_app, !apiCalls_app, sinkCalls_requests, apiCalls_requests.
    split; [done|]. simpl. by rewrite app_nil_r.
Qed.

Lemma scheduledTask_connected st conn :
  connection (this st) = Some conn ->
  exists evs,
    scheduledTask st = (Return tt, addTrace st evs)
    /\ sinkCalls evs = cycleSubmission st
    /\ apiCalls evs = gkeParents (this st).
Proof.
  intros Hconn.
  destruct (refresh_connected st conn Hconn) as (evs & Hevs & Hsink & Hapi).
  unfold scheduledTask, tryCatch.
  destruct (refresh st) as [[[]|e] st']; cbn [snd] in Hevs; subst st'.
  - by exists evs.
  - unfold logger_error_object. rewrite emit_run, addTrace_app.
    exists (evs ++ [LogObject error e]). split; [done|].
    rewrite sinkCalls_app, apiCalls_app, Hsink, Hapi. simpl.
    by rewrite !app_nil_r.
Qed.

Lemma TaskRunner_run_connected n id st conn :
  connection (this st) = Some conn ->
  exists evs,
    TaskRunner_run n id scheduledTask st = (Return tt, atTick (addTrace st evs) n)
    /\ sinkCalls evs = mjoin ((fun k => cycleSubmission (atTick st k)) <$> seq 0 n)
    /\ apiCalls evs = mjoin (replicate n (gkeParents (this st))).
Proof.
  revert st. induction n as [|n IH]; intros st Hconn.
  - exists []. split; [|done]. destruct st. unfold atTick, addTrace. simpl.
    by rewrite app_nil_r.
  - cbn [TaskRunner_run]. unfold bind at 1.
    destruct (scheduledTask_connected st conn Hconn) as (evs1 & -> & Hsink1 & Hapi1).
    unfold bind at 1. unfold nextCycle at 1.
    match goal with |- context [TaskRunner_run n id scheduledTask ?s] =>
      set (st1 := s) end.
    destruct (IH st1 Hconn) as (evs & -> & Hsink & Hapi).
    exists (evs1 ++ evs). split; [|split].
    + f_equal. unfold atTick, addTrace, st1. cbn [this trace cycle addTrace].
      f_equal; first [lia | by rewrite app_assoc].
    + rewrite sinkCalls_app, Hsink1, Hsink. cbn [seq fmap list_fmap mjoin list_join].
      assert ((fun k => cycleSubmission (atTick st1 k)) <$> seq 0 n
              = (fun k => cycleSubmission (atTick st k)) <$> seq 1 n) as ->.
      { rewrite <- fmap_S_seq, <- list_fmap_compose.
        apply list_fmap_ext. intros _ k _. apply cycleSubmission_ext; [done|].
        unfold atTick, st1. cbn [cycle addTrace]. lia. }
      by rewrite (cycleSubmission_ext st (atTick st 0)).
    + rewrite apiCalls_app, Hapi1, Hapi. by rewrite replicate_S.
Qed.

(** ** Further properties *)

(** X1: getClusters makes one list request per configured parent, in the
    order of the configuration, whether or not any of them rejects, and
    nothing else is observable of it. *)
Theorem X1_getClusters_requests_every_parent st :
  (getClusters st).2 = addTrace st (ListClustersRequest <$> gkeParents (this st))
  /\ apiCalls (trace (getClusters st).2) = apiCalls (trace st) ++ gkeParents (this st)
  /\ sinkCalls (trace (getClusters st).2) = sinkCalls (trace st).
Proof.
  rewrite getClusters_run. cbn [snd addTrace trace].
  rewrite apiCalls_app, sinkCalls_app, apiCalls_requests, sinkCalls_requests.
  by rewrite app_nil_r.
Qed.

(** X2: getClusters returns exactly when every parent's list call is
    fulfilled; when it throws, it throws the reason of a rejected call. *)
Theorem X2_getClusters_returns_iff st :
  ((exists cs, (getClusters st).1 = Return cs)
   <-> Forall (listFulfilled st) (gkeParents (this st)))
  /\ (forall e,
        (getClusters st).1 = Throw e ->
        exists p, p ∈ gkeParents (this st) /\ listRejected st p e).
Proof.
  rewrite getClusters_run. cbn [fst]. unfold Promise_all.
  destruct (firstRejection _) as [[t e]|] eqn:Hrej; cbn [rejected resolved result].
  - split.
    + split; [by intros [cs ?]|]. intros Hall.
      destruct (fulfilled_parents st _ Hall) as [Hnone _]. congruence.
    + intros e' [= <-]. by apply (rejection_of_parent st _ t).
  - split; [|discriminate].
    split; [intros _; by apply firstRejection_None_inv | by eexists].
Qed.

(** X3: in a cycle whose list calls are all fulfilled, every non-null
    record is accounted for: the warnings logged and the entities submitted
    add up to the records received, and the sink call is the last event,
    after every request and every warning. *)
Theorem X3_refresh_accounts_for_every_record st conn :
  connection (this st) = Some conn ->
  Forall (listFulfilled st) (gkeParents (this st)) ->
  exists warnings ingesting,
    (refresh st).2
    = addTrace st
        ([Log info "Discovering GKE clusters" None]
         ++ (ListClustersRequest <$> gkeParents (this st))
         ++ warnings
         ++ [Log info ingesting None;
             ApplyMutationCall (full (entitiesOfParents st))])
    /\ Forall (fun ev => isLog warn ev = true) warnings
    /\ (length warnings + length (entitiesOfParents st)
        = length (unwrap (concat (recordsOfParent st <$> gkeParents (this st)))))%nat.
Proof.
  intros Hconn Hall. rewrite (refresh_fulfilled_trace st conn Hconn Hall).
  eexists _, _. split; [reflexivity|]. split; [apply warnings_all|].
  rewrite entitiesOfParents_concat, <- mappedEntities_unwrap.
  apply mapped_or_warned.
Qed.

(** X4: with no parent configured, a connected refresh makes no list
    request and still submits a full mutation, with no entity in it. *)
Theorem X4_refresh_without_parents st conn :
  connection (this st) = Some conn ->
  gkeParents (this st) = [] ->
  refresh st
  = (applyMutation conn (cycle st) (full []),
     addTrace st
       [Log info "Discovering GKE clusters" None;
        Log info "Ingesting GKE clusters []" None;
        ApplyMutationCall (full [])]).
Proof.
  intros Hconn Hparents.
  rewrite (refresh_fulfilled_trace st conn Hconn); [|rewrite Hparents; constructor].
  unfold entitiesOfParents. by rewrite Hparents.
Qed.

(** X5: when the sink rejects the mutation, refresh has made its one sink
    call and throws the sink's error; the scheduled task catches that error
    and logs it as its last event. *)
Theorem X5_sink_rejection_propagates st conn e :
  connection (this st) = Some conn ->
  Forall (listFulfilled st) (gkeParents (this st)) ->
  applyMutation conn (cycle st) (full (entitiesOfParents st)) = Throw e ->
  (refresh st).1 = Throw e
  /\ sinkCalls (trace (refresh st).2)
     = sinkCalls (trace st) ++ [full (entitiesOfParents st)]
  /\ scheduledTask st = (Return tt, addTrace (refresh st).2 [LogObject error e]).
Proof.
  intros Hconn Hall Hsink.
  unfold scheduledTask, tryCatch.
  destruct (refresh_fulfilled st conn Hconn Hall) as (ws & Hws & ->).
  rewrite Hsink. cbn [fst snd addTrace trace].
  split; [done|]. split; [|done].
  by rewrite !sinkCalls_app, sinkCalls_requests, (sinkCalls_warnings ws Hws).
Qed.

(** X6: an entity that clusterToResource returns is a Resource of API
    version backstage.io/v1alpha1 in namespace default, of type
    kubernetes-cluster and owner unknown; its name is the record's name,
    which is not empty; and returning it logs nothing. *)
Theorem X6_entity_shape c e st st' :
  clusterToResource (val c) st = (Return (Some e), st') ->
  st' = st
  /\ apiVersion (entity e) = "backstage.io/v1alpha1"
  /\ kind (entity e) = "Resource"
  /\ namespace (metadata (entity e)) = "default"
  /\ type (spec (entity e)) = "kubernetes-cluster"
  /\ owner (spec (entity e)) = "unknown"
  /\ name c = val (entityName (metadata (entity e)))
  /\ entityName (metadata (entity e)) <> "".
Proof.
  rewrite clusterToResource_val. intros [= Hmap Hst].
  split; [|by apply mappedEntity_shape].
  apply mappedEntity_Some in Hmap as (Hn & Hs & He & _).
  destruct (mappedEntity_is_Some c Hn Hs He) as [_ Hw].
  by rewrite <- Hst, Hw, addTrace_nil.
Qed.

(** X7: the annotations of an entity are those of the five keys of the
    object literal and no other. *)
Theorem X7_annotation_keys c e st st' :
  clusterToResource (val c) st = (Return (Some e), st') ->
  dom (annotations (metadata (entity e)))
  = ({[ANNOTATION_KUBERNETES_API_SERVER;
       ANNOTATION_KUBERNETES_API_SERVER_CA;
       ANNOTATION_KUBERNETES_AUTH_PROVIDER;
       "backstage.io/managed-by-location";
       "backstage.io/managed-by-origin-location"]} : gset string).
Proof.
  rewrite clusterToResource_val. intros [= Hmap _].
  apply mappedEntity_Some in Hmap as (_ & _ & _ & _ & -> & _).
  cbv [objectLiteral foldl fst snd].
  rewrite !dom_insert_L, dom_empty_L.
  apply set_eq. intros k.
  rewrite !elem_of_union, !elem_of_singleton, elem_of_empty. tauto.
Qed.

(** X8: the snapshot of a fulfilled cycle holds exactly the entities of the
    upstream records that have a name, a self link and an endpoint: every
    entity in it is what clusterToResource returns for a record of some
    configured parent, and every such record's entity is in it. *)
Theorem X8_snapshot_membership st conn :
  connection (this st) = Some conn ->
  Forall (listFulfilled st) (gkeParents (this st)) ->
  exists snapshot,
    sinkCalls (trace (refresh st).2) = sinkCalls (trace st) ++ [full snapshot]
    /\ forall e,
        e ∈ snapshot
        <-> exists p c,
              p ∈ gkeParents (this st)
              /\ val c ∈ recordsOfParent st p
              /\ truthy (name c) && truthy (selfLink c) && truthy (endpoint c) = true
              /\ (clusterToResource (val c) st).1 = Return (Some e).
Proof.
  intros Hconn Hall.
  destruct (refresh_fulfilled st conn Hconn Hall) as (ws & Hws & ->).
  exists (entitiesOfParents st). split.
  { cbn [snd addTrace trace].
    by rewrite !sinkCalls_app, sinkCalls_requests, (sinkCalls_warnings ws Hws). }
  intros e. unfold entitiesOfParents. rewrite list_elem_of_join. split.
  - intros (es & He & Hes).
    apply list_elem_of_fmap in Hes as (p & -> & Hp).
    unfold mappedEntities in He. apply list_elem_of_omap in He as (c0 & Hc0 & Hmap).
    destruct c0 as [| |c]; try discriminate.
    exists p, c. split; [done|]. split; [done|].
    rewrite clusterToResource_val, Hmap. split; [|done].
    apply mappedEntity_Some in Hmap as (-> & -> & -> & _). done.
  - intros (p & c & Hp & Hc & _ & Hrun).
    rewrite clusterToResource_val in Hrun. injection Hrun as Hmap.
    exists (mappedEntities (recordsOfParent st p)). split.
    + unfold mappedEntities. apply list_elem_of_omap. by exists (val c).
    + apply list_elem_of_fmap. by exists p.
Qed.

(** X9: a connected refresh asks every parent once, makes the sink call of
    the snapshot when all list calls are fulfilled and no sink call
    otherwise, and leaves the provider and the cycle as they were. *)
Theorem X9_refresh_connected_calls st conn :
  connection (this st) = Some conn ->
  apiCalls (trace (refresh st).2) = apiCalls (trace st) ++ gkeParents (this st)
  /\ sinkCalls (trace (refresh st).2) = sinkCalls (trace st) ++ cycleSubmission st
  /\ this (refresh st).2 = this st
  /\ cycle (refresh st).2 = cycle st.
Proof.
  intros Hconn.
  destruct (refresh_connected st conn Hconn) as (evs & -> & Hsink & Hapi).
  cbn [addTrace trace this cycle].
  by rewrite apiCalls_app, sinkCalls_app, Hsink, Hapi.
Qed.

(** X10: connect stores the connection and runs the schedule to its end:
    every tick asks every parent once, and the sink receives, tick by tick,
    the snapshot of each cycle whose list calls were all fulfilled, so a
    cycle that aborts costs only its own snapshot. *)
Theorem X10_connect_runs_schedule st conn :
  exists st',
    connect conn st = (Return tt, st')
    /\ this st' = this (withConnection st conn)
    /\ cycle st' = (ticks (taskRunner (this st)) + cycle st)%nat
    /\ apiCalls (trace st')
       = apiCalls (trace st)
         ++ mjoin (replicate (ticks (taskRunner (this st))) (gkeParents (this st)))
    /\ sinkCalls (trace st')
       = sinkCalls (trace st)
         ++ mjoin ((fun k => cycleSubmission (atTick (withConnection st conn) k))
                     <$> seq 0 (ticks (taskRunner (this st)))).
Proof.
  unfold connect. unfold bind at 1. unfold scheduleFn, createScheduleFn.
  unfold bind at 1. unfold getThis at 1. cbn [this taskRunner].
  fold (withConnection st conn).
  destruct (TaskRunner_run_connected (ticks (taskRunner (this st)))
              (getProviderName +:+ ":refresh") (withConnection st conn) conn eq_refl)
    as (evs & -> & Hsink & Hapi).
  eexists. split; [reflexivity|].
  cbn [atTick addTrace withConnection this trace cycle].
  by rewrite apiCalls_app, sinkCalls_app, Hsink, Hapi.
Qed.

(** X11: construction from configuration succeeds exactly when the
    provider's configuration section, its schedule section, the parsed
    schedule and the list of parents can all be read; the provider then has
    those parents as configured, the given client, the task runner of the
    parsed schedule, and no connection. *)
Theorem X11_fromConfigWithClient_succeeds logger scheduler config client p :
  fromConfigWithClient logger scheduler config client = Return p
  <-> exists gkeProviderConfig scheduleConfig schedule parents,
        getConfig config "catalog.providers.gcp.gke" = Return gkeProviderConfig
        /\ getConfig gkeProviderConfig "schedule" = Return scheduleConfig
        /\ readTaskScheduleDefinitionFromConfig scheduleConfig = Return schedule
        /\ getStringArray gkeProviderConfig "parents" = Return parents
        /\ p = {| taskRunner := createScheduledTaskRunner scheduler schedule;
                  gkeParents := parents;
                  clusterManagerClient := client;
                  connection := None |}.
Proof.
  unfold fromConfigWithClient, andThen, GkeEntityProvider_new. split.
  - destruct (getConfig config _) as [gke|] eqn:Hgke; [|discriminate].
    destruct (getConfig gke _) as [sc|] eqn:Hsc; [|discriminate].
    destruct (readTaskScheduleDefinitionFromConfig sc) as [def|] eqn:Hdef;
      [|discriminate].
    destruct (getStringArray gke _) as [ps|] eqn:Hps; [|discriminate].
    intros [= <-]. by exists gke, sc, def, ps.
  - intros (gke & sc & def & ps & -> & -> & -> & -> & ->). reflexivity.
Qed.

(** X12: construction fails fast: it throws the error of the first read
    that fails, in the order configuration section, schedule section,
    schedule parsing, parents. *)
Theorem X12_fromConfigWithClient_fails_fast logger scheduler config client e :
  (getConfig config "catalog.providers.gcp.gke" = Throw e ->
   fromConfigWithClient logger scheduler config client = Throw e)
  /\ (forall gkeProviderConfig,
        getConfig config "catalog.providers.gcp.gke" = Return gkeProviderConfig ->
        (getConfig gkeProviderConfig "schedule" = Throw e ->
         fromConfigWithClient logger scheduler config client = Throw e)
        /\ (forall scheduleConfig,
              getConfig gkeProviderConfig "schedule" = Return scheduleConfig ->
              (readTaskScheduleDefinitionFromConfig scheduleConfig = Throw e ->
               fromConfigWithClient logger scheduler config client = Throw e)
              /\ (forall schedule,
                    readTaskScheduleDefinitionFromConfig scheduleConfig
                    = Return schedule ->
                    getStringArray gkeProviderConfig "parents" = Throw e ->
                    fromConfigWithClient logger scheduler config client = Throw e))).
Proof.
  unfold fromConfigWithClient, andThen.
  split; [by intros ->|]. intros gke ->.
  split; [by intros ->|]. intros sc ->.
  split; [by intros ->|]. by intros def -> ->.
Qed.

(** X13: a provider made by fromConfig uses the default client and is not
    connected: refresh on it throws "Not initialized" and makes no call;
    once connect is called on it, the schedule runs and every tick asks
    every configured parent. *)
Theorem X13_fromConfig_then_connect logger scheduler config p conn :
  fromConfig logger scheduler config = Return p ->
  clusterManagerClient p = newClusterManagerClient
  /\ refresh (started p) = (Throw (mkError "Error" "Not initialized"), started p)
  /\ exists st',
      connect conn (started p) = (Return tt, st')
      /\ connection (this st') = Some conn
      /\ apiCalls (trace st')
         = mjoin (replicate (ticks (taskRunner p)) (gkeParents p)).
Proof.
  unfold fromConfig, fromConfigWithClient, andThen, GkeEntityProvider_new.
  destruct (getConfig config _) as [gke|]; [|discriminate].
  destruct (getConfig gke _) as [sc|]; [|discriminate].
  destruct (readTaskScheduleDefinitionFromConfig sc) as [def|]; [|discriminate].
  destruct (getStringArray gke _) as [ps|]; [|discriminate].
  intros [= <-]. cbn [clusterManagerClient taskRunner gkeParents].
  split; [done|]. split; [by apply refresh_not_connected|].
  match goal with |- context [connect conn ?s] => set (st := s) end.
  unfold connect. unfold bind at 1. unfold scheduleFn, createScheduleFn.
  unfold bind at 1. unfold getThis at 1. cbn [this taskRunner].
  fold (withConnection st conn).
  destruct (TaskRunner_run_connected (ticks (taskRunner (this st)))
              (getProviderName +:+ ":refresh") (withConnection st conn) conn eq_refl)
    as (evs & -> & _ & Hapi).
  eexists. split; [reflexivity|]. split; [done|].
  cbn [atTick addTrace withConnection this trace cycle]. exact Hapi.
Qed.

End Provider.

(** ** The properties on the scenarios *)

Ltac all_fulfilled :=
  lazymatch goal with |- Forall ?P _ => change (Forall P ["p1"; "p2"]) end;
  repeat (constructor; [eexists; reflexivity|]); constructor.

Lemma kubernetes_keys_distinct :
  distinctKeys KUBERNETES_API_SERVER KUBERNETES_API_SERVER_CA KUBERNETES_AUTH_PROVIDER.
Proof. apply (bool_decide_unpack _). vm_compute. exact I. Defined.

(** The list call of [p1] rejects: both requests were made, the rejection
    is logged and the sink is not called. *)
Lemma C2_first_parent_fails :
  exists e,
    refresh KUBERNETES_API_SERVER KUBERNETES_API_SERVER_CA KUBERNETES_AUTH_PROVIDER
      firstParentFails
    = (Return tt,
       addTrace firstParentFails
         [Log info "Discovering GKE clusters" None;
          ListClustersRequest "p1"; ListClustersRequest "p2";
          Log error "error fetching GKE clusters" (Some e)])
    /\ sinkCalls
         (trace
            (refresh KUBERNETES_API_SERVER KUBERNETES_API_SERVER_CA
               KUBERNETES_AUTH_PROVIDER firstParentFails).2)
       = [].
Proof.
  destruct (C2_refresh_aborts_on_rejection
              KUBERNETES_API_SERVER KUBERNETES_API_SERVER_CA KUBERNETES_AUTH_PROVIDER
              firstParentFails acceptingSink "p1" (mkError "Error" "permission denied"))
    as (e & p' & _ & _ & Hrun & Hsink);
    [reflexivity | constructor | reflexivity |].
  exists e. split; [exact Hrun | exact Hsink].
Defined.

(** The complete record of [p1] is the one entity of the snapshot. *)
Lemma C3_complete_record_in_snapshot :
  exists e,
    (forall st,
        clusterToResource KUBERNETES_API_SERVER KUBERNETES_API_SERVER_CA
          KUBERNETES_AUTH_PROVIDER (val clusterA) st
        = (Return (Some e), st))
    /\ locationKey e = "gcp-gke:us"
    /\ annotations (metadata (entity e)) !! KUBERNETES_API_SERVER
       = Some "https://1.2.3.4"
    /\ sinkCalls
         (trace
            (refresh KUBERNETES_API_SERVER KUBERNETES_API_SERVER_CA
               KUBERNETES_AUTH_PROVIDER twoParents).2)
       = [full [e]].
Proof.
  destruct (C3_complete_record_mapped
              KUBERNETES_API_SERVER KUBERNETES_API_SERVER_CA KUBERNETES_AUTH_PROVIDER
              clusterA kubernetes_keys_distinct eq_refl)
    as (e & Hrun & _ & Hkey & Hann & Hrefresh).
  exists e. split; [exact Hrun|]. split; [exact Hkey|]. split; [exact Hann|].
  apply (Hrefresh twoParents acceptingSink [] [null; val clusterWithoutEndpoint]);
    [reflexivity | all_fulfilled | reflexivity].
Defined.

(** Both list calls are fulfilled: one full mutation, with the entity of
    the one record that has a name, a self link and an endpoint. *)
Lemma C4_two_parents_one_mutation :
  exists e,
    sinkCalls (trace (refresh KUBERNETES_API_SERVER KUBERNETES_API_SERVER_CA KUBERNETES_AUTH_PROVIDER twoParents).2) = [full [e]]
    /\ mutationType (full [e]) = "full"
    /\ locationKey e = "gcp-gke:us"
    /\ entityName (metadata (entity e)) = "a"
    /\ annotations (metadata (entity e)) !! KUBERNETES_API_SERVER
       = Some "https://1.2.3.4".
Proof.
  destruct (proj1 (C4_one_full_mutation KUBERNETES_API_SERVER KUBERNETES_API_SERVER_CA KUBERNETES_AUTH_PROVIDER) twoParents acceptingSink)
    as (snapshot & Hsink & Htype & Hsnap & _); [reflexivity | all_fulfilled |].
  change (List.filter passesGuard (upstreamRecords twoParents))
    with [clusterA] in Hsnap.
  apply Forall2_cons_inv_l in Hsnap as (e & es & Hce & Hrest & ->).
  apply Forall2_nil_inv_l in Hrest as ->.
  destruct Hce as (Hkey & _ & Hname & _ & _ & _ & Hann).
  exists e. split; [exact Hsink|]. split; [exact Htype|].
  split; [exact Hkey|]. split; [exact Hname|].
  exact (Hann kubernetes_keys_distinct).
Defined.

(** Refresh, then refresh again from the state the first one left: each
    submits the one entity of [twoParents]. *)
Lemma C5_refresh_twice :
  let refresh' := refresh KUBERNETES_API_SERVER KUBERNETES_API_SERVER_CA KUBERNETES_AUTH_PROVIDER in
  exists e,
    sinkCalls (trace (refresh' twoParents).2) = [full [e]]
    /\ sinkCalls (trace (refresh' (refresh' twoParents).2).2)
       = [full [e]; full [e]]
    /\ locationKey e = "gcp-gke:us"
    /\ entityName (metadata (entity e)) = "a".
Proof.
  intros refresh'.
  destruct (C5_refresh_deterministic KUBERNETES_API_SERVER KUBERNETES_API_SERVER_CA KUBERNETES_AUTH_PROVIDER twoParents (refresh' twoParents).2
              acceptingSink acceptingSink)
    as (submitted & H1 & H2 & Hfulfilled & _);
    [reflexivity | reflexivity | reflexivity | intros p _; reflexivity |].
  destruct Hfulfilled as (snapshot & -> & Hsnap); [all_fulfilled|].
  change (List.filter passesGuard (upstreamRecords twoParents))
    with [clusterA] in Hsnap.
  apply Forall2_cons_inv_l in Hsnap as (e & es & Hce & Hrest & ->).
  apply Forall2_nil_inv_l in Hrest as ->.
  destruct Hce as (Hkey & _ & Hname & _).
  exists e. split; [exact H1|]. split; [|split; [exact Hkey | exact Hname]].
  unfold refresh' in *. rewrite H2, H1. reflexivity.
Defined.

(** A provider that was never connected. *)
Lemma C6_idle_provider :
  refresh KUBERNETES_API_SERVER KUBERNETES_API_SERVER_CA KUBERNETES_AUTH_PROVIDER
    idleState
  = (Throw (mkError "Error" "Not initialized"), idleState)
  /\ sinkCalls
       (trace
          (refresh KUBERNETES_API_SERVER KUBERNETES_API_SERVER_CA
             KUBERNETES_AUTH_PROVIDER idleState).2)
     = []
  /\ apiCalls
       (trace
          (refresh KUBERNETES_API_SERVER KUBERNETES_API_SERVER_CA
             KUBERNETES_AUTH_PROVIDER idleState).2)
     = [].
Proof.
  apply (C6_refresh_before_connect
           KUBERNETES_API_SERVER KUBERNETES_API_SERVER_CA KUBERNETES_AUTH_PROVIDER
           idleState).
  reflexivity.
Defined.

(** The sink rejects the mutation: refresh throws, the task logs and returns. *)
Lemma C7_sink_rejection_logged :
  let refresh' :=
    refresh KUBERNETES_API_SERVER KUBERNETES_API_SERVER_CA KUBERNETES_AUTH_PROVIDER in
  (refresh' sinkFails).1 = Throw (mkError "Error" "catalog unavailable")
  /\ scheduledTask KUBERNETES_API_SERVER KUBERNETES_API_SERVER_CA
       KUBERNETES_AUTH_PROVIDER sinkFails
     = (Return tt,
        addTrace (refresh' sinkFails).2
          [LogObject error (mkError "Error" "catalog unavailable")]).
Proof.
  split; [reflexivity|].
  apply (proj1 (proj2 (C7_scheduled_task_never_throws
                         KUBERNETES_API_SERVER KUBERNETES_API_SERVER_CA
                         KUBERNETES_AUTH_PROVIDER sinkFails))).
  reflexivity.
Defined.

(** The null entry of [p1] is gone from what getClusters returns. *)
Lemma C8_null_entry_dropped :
  recordsOfParent twoParents "p1" = [val clusterA; null]
  /\ [val clusterA; val clusterWithoutEndpoint]
     = val <$> unwrap (concat (recordsOfParent twoParents <$> ["p1"; "p2"]))
  /\ Forall (fun c => filterOutUndefinedCluster c = true)
       [val clusterA; val clusterWithoutEndpoint].
Proof.
  split; [reflexivity|].
  destruct (C8_null_records_dropped
              KUBERNETES_API_SERVER KUBERNETES_API_SERVER_CA KUBERNETES_AUTH_PROVIDER
              twoParents [val clusterA; val clusterWithoutEndpoint]
              (getClusters twoParents).2 eq_refl)
    as (Hcs & Hall & _).
  split; [exact Hcs | exact Hall].
Defined.

(** The annotations of the entity of the complete record. *)
Lemma C9_annotations_of_clusterA :
  exists e,
    clusterToResource KUBERNETES_API_SERVER KUBERNETES_API_SERVER_CA
      KUBERNETES_AUTH_PROVIDER (val clusterA) idleState
    = (Return (Some e), idleState)
    /\ annotations (metadata (entity e)) !! KUBERNETES_AUTH_PROVIDER = Some "google"
    /\ annotations (metadata (entity e)) !! "backstage.io/managed-by-location"
       = Some (locationKey e)
    /\ annotations (metadata (entity e)) !! "backstage.io/managed-by-origin-location"
       = Some (locationKey e)
    /\ annotations (metadata (entity e)) !! KUBERNETES_API_SERVER_CA = Some "Q0E=".
Proof.
  eexists. split; [reflexivity|].
  apply (C9_fixed_annotations
           KUBERNETES_API_SERVER KUBERNETES_API_SERVER_CA KUBERNETES_AUTH_PROVIDER
           clusterA _ idleState idleState kubernetes_keys_distinct).
  reflexivity.
Defined.

(** The response of [p2] has a null clusters field: the snapshot is that of
    [p1] alone. *)
Lemma C10_second_parent_without_clusters :
  recordsOfParent secondParentEmpty "p2" = []
  /\ (exists cs st', getClusters secondParentEmpty = (Return cs, st'))
  /\ sinkCalls
       (trace
          (refresh KUBERNETES_API_SERVER KUBERNETES_API_SERVER_CA
             KUBERNETES_AUTH_PROVIDER secondParentEmpty).2)
     = [full (mappedEntities KUBERNETES_API_SERVER KUBERNETES_API_SERVER_CA
                KUBERNETES_AUTH_PROVIDER [val clusterA])].
Proof.
  apply (C10_missing_clusters_is_empty
           KUBERNETES_API_SERVER KUBERNETES_API_SERVER_CA KUBERNETES_AUTH_PROVIDER
           secondParentEmpty acceptingSink ["p1"] "p2" [] {| clusters := null |});
    [reflexivity | all_fulfilled | reflexivity | reflexivity | by left].
Defined.

(** ** The further properties on the scenarios *)

(** [twoParents]: one warning and one entity for two non-null records. *)
Lemma X3_two_parents_accounted :
  exists warnings ingesting,
    (refresh KUBERNETES_API_SERVER KUBERNETES_API_SERVER_CA KUBERNETES_AUTH_PROVIDER twoParents).2
    = addTrace twoParents
        ([Log info "Discovering GKE clusters" None]
         ++ [ListClustersRequest "p1"; ListClustersRequest "p2"]
         ++ warnings
         ++ [Log info ingesting None;
             ApplyMutationCall (full (entitiesOfParents KUBERNETES_API_SERVER KUBERNETES_API_SERVER_CA KUBERNETES_AUTH_PROVIDER twoParents))])
    /\ Forall (fun ev => isLog warn ev = true) warnings
    /\ (length warnings + length (entitiesOfParents KUBERNETES_API_SERVER KUBERNETES_API_SERVER_CA KUBERNETES_AUTH_PROVIDER twoParents) = 2)%nat.
Proof.
  apply (X3_refresh_accounts_for_every_record KUBERNETES_API_SERVER KUBERNETES_API_SERVER_CA KUBERNETES_AUTH_PROVIDER twoParents acceptingSink);
    [reflexivity | all_fulfilled].
Defined.

(** A connected provider without parents. *)
Lemma X4_connected_idle_provider :
  refresh KUBERNETES_API_SERVER KUBERNETES_API_SERVER_CA KUBERNETES_AUTH_PROVIDER (withConnection idleState acceptingSink)
  = (Return tt,
     addTrace (withConnection idleState acceptingSink)
       [Log info "Discovering GKE clusters" None;
        Log info "Ingesting GKE clusters []" None;
        ApplyMutationCall (full [])]).
Proof.
  apply (X4_refresh_without_parents KUBERNETES_API_SERVER KUBERNETES_API_SERVER_CA KUBERNETES_AUTH_PROVIDER
           (withConnection idleState acceptingSink) acceptingSink);
    reflexivity.
Defined.

(** [sinkFails]: the sink call is made and its error is logged by the task. *)
Lemma X5_sink_fails :
  (refresh KUBERNETES_API_SERVER KUBERNETES_API_SERVER_CA KUBERNETES_AUTH_PROVIDER sinkFails).1 = Throw (mkError "Error" "catalog unavailable")
  /\ sinkCalls (trace (refresh KUBERNETES_API_SERVER KUBERNETES_API_SERVER_CA KUBERNETES_AUTH_PROVIDER sinkFails).2)
     = [full (entitiesOfParents KUBERNETES_API_SERVER KUBERNETES_API_SERVER_CA KUBERNETES_AUTH_PROVIDER sinkFails)]
  /\ scheduledTask KUBERNETES_API_SERVER KUBERNETES_API_SERVER_CA KUBERNETES_AUTH_PROVIDER sinkFails
     = (Return tt,
        addTrace (refresh KUBERNETES_API_SERVER KUBERNETES_API_SERVER_CA KUBERNETES_AUTH_PROVIDER sinkFails).2
          [LogObject error (mkError "Error" "catalog unavailable")]).
Proof.
  apply (X5_sink_rejection_propagates KUBERNETES_API_SERVER KUBERNETES_API_SERVER_CA KUBERNETES_AUTH_PROVIDER sinkFails rejectingSink
           (mkError "Error" "catalog unavailable"));
    [reflexivity | all_fulfilled | reflexivity].
Defined.

(** The entity of the complete record. *)
Lemma X6_shape_of_clusterA :
  exists e,
    clusterToResource KUBERNETES_API_SERVER KUBERNETES_API_SERVER_CA KUBERNETES_AUTH_PROVIDER (val clusterA) idleState = (Return (Some e), idleState)
    /\ apiVersion (entity e) = "backstage.io/v1alpha1"
    /\ kind (entity e) = "Resource"
    /\ namespace (metadata (entity e)) = "default"
    /\ type (spec (entity e)) = "kubernetes-cluster"
    /\ owner (spec (entity e)) = "unknown"
    /\ entityName (metadata (entity e)) = "a".
Proof.
  eexists. split; [reflexivity|].
  destruct (X6_entity_shape KUBERNETES_API_SERVER KUBERNETES_API_SERVER_CA KUBERNETES_AUTH_PROVIDER clusterA _ idleState idleState eq_refl)
    as (_ & Hv & Hk & Hns & Ht & Ho & _ & _).
  repeat split; assumption.
Defined.

(** The annotation keys of the entity of the complete record. *)
Lemma X7_keys_of_clusterA :
  exists e,
    clusterToResource KUBERNETES_API_SERVER KUBERNETES_API_SERVER_CA KUBERNETES_AUTH_PROVIDER (val clusterA) idleState = (Return (Some e), idleState)
    /\ dom (annotations (metadata (entity e)))
       = ({[KUBERNETES_API_SERVER;
            KUBERNETES_API_SERVER_CA;
            KUBERNETES_AUTH_PROVIDER;
            "backstage.io/managed-by-location";
            "backstage.io/managed-by-origin-location"]} : gset string).
Proof.
  eexists. split; [reflexivity|].
  apply (X7_annotation_keys KUBERNETES_API_SERVER KUBERNETES_API_SERVER_CA KUBERNETES_AUTH_PROVIDER clusterA _ idleState idleState).
  reflexivity.
Defined.

(** [twoParents]: what is in the snapshot. *)
Lemma X8_two_parents_snapshot :
  exists snapshot,
    sinkCalls (trace (refresh KUBERNETES_API_SERVER KUBERNETES_API_SERVER_CA KUBERNETES_AUTH_PROVIDER twoParents).2) = [full snapshot]
    /\ forall e,
        e ∈ snapshot
        <-> exists p c,
              p ∈ ["p1"; "p2"]
              /\ val c ∈ recordsOfParent twoParents p
              /\ truthy (name c) && truthy (selfLink c) && truthy (endpoint c) = true
              /\ (clusterToResource KUBERNETES_API_SERVER KUBERNETES_API_SERVER_CA KUBERNETES_AUTH_PROVIDER (val c) twoParents).1 = Return (Some e).
Proof.
  apply (X8_snapshot_membership KUBERNETES_API_SERVER KUBERNETES_API_SERVER_CA KUBERNETES_AUTH_PROVIDER twoParents acceptingSink);
    [reflexivity | all_fulfilled].
Defined.

(** [firstParentFails]: both parents are asked, nothing is submitted. *)
Lemma X9_first_parent_fails_calls :
  apiCalls (trace (refresh KUBERNETES_API_SERVER KUBERNETES_API_SERVER_CA KUBERNETES_AUTH_PROVIDER firstParentFails).2) = ["p1"; "p2"]
  /\ sinkCalls (trace (refresh KUBERNETES_API_SERVER KUBERNETES_API_SERVER_CA KUBERNETES_AUTH_PROVIDER firstParentFails).2) = []
  /\ this (refresh KUBERNETES_API_SERVER KUBERNETES_API_SERVER_CA KUBERNETES_AUTH_PROVIDER firstParentFails).2 = this firstParentFails
  /\ cycle (refresh KUBERNETES_API_SERVER KUBERNETES_API_SERVER_CA KUBERNETES_AUTH_PROVIDER firstParentFails).2 = 0%nat.
Proof.
  apply (X9_refresh_connected_calls KUBERNETES_API_SERVER KUBERNETES_API_SERVER_CA KUBERNETES_AUTH_PROVIDER firstParentFails acceptingSink).
  reflexivity.
Defined.

(** The cloud API is down in the first cycle and back in the second: two
    ticks ask both parents twice, and the sink gets the second snapshot. *)
Lemma X10_recovery_after_failed_cycle :
  let st := providerOf (recoveringClient 1) acceptingSink in
  exists st',
    connect KUBERNETES_API_SERVER KUBERNETES_API_SERVER_CA KUBERNETES_AUTH_PROVIDER acceptingSink st = (Return tt, st')
    /\ cycle st' = 2%nat
    /\ apiCalls (trace st') = ["p1"; "p2"; "p1"; "p2"]
    /\ sinkCalls (trace st') = [full (entitiesOfParents KUBERNETES_API_SERVER KUBERNETES_API_SERVER_CA KUBERNETES_AUTH_PROVIDER (atTick st 1))].
Proof.
  intros st.
  destruct (X10_connect_runs_schedule KUBERNETES_API_SERVER KUBERNETES_API_SERVER_CA KUBERNETES_AUTH_PROVIDER st acceptingSink)
    as (st' & Hrun & _ & Hcycle & Hapi & Hsink).
  exists st'. split; [exact Hrun|]. split; [exact Hcycle|].
  split; [exact Hapi | exact Hsink].
Defined.

(** A configuration with a schedule and two parents. *)
Lemma X11_provider_of_gkeConfig :
  fromConfigWithClient nat (fun _ => Return 2%nat) winstonLogger
    {| createScheduledTaskRunner := fun n => {| ticks := n |} |}
    (gkeConfig ["p1"; "p2"]) (recoveringClient 1)
  = Return {| taskRunner := {| ticks := 2 |};
              gkeParents := ["p1"; "p2"];
              clusterManagerClient := recoveringClient 1;
              connection := None |}.
Proof.
  apply (proj2 (X11_fromConfigWithClient_succeeds nat (fun _ => Return 2%nat)
                  winstonLogger
                  {| createScheduledTaskRunner := fun n => {| ticks := n |} |}
                  (gkeConfig ["p1"; "p2"]) (recoveringClient 1) _)).
  eexists _, _, _, _. repeat split; reflexivity.
Defined.

(** A configuration without the provider's section. *)
Lemma X12_emptyConfig_fails :
  fromConfigWithClient nat (fun _ => Return 2%nat) winstonLogger
    {| createScheduledTaskRunner := fun n => {| ticks := n |} |}
    emptyConfig (recoveringClient 1)
  = Throw (mkError "Error"
             "Missing required config value at 'catalog.providers.gcp.gke'").
Proof.
  apply (proj1 (X12_fromConfigWithClient_fails_fast nat (fun _ => Return 2%nat)
                  winstonLogger
                  {| createScheduledTaskRunner := fun n => {| ticks := n |} |}
                  emptyConfig (recoveringClient 1) _)).
  reflexivity.
Defined.

(** From configuration to the first two ticks. *)
Lemma X13_configured_provider_connects :
  let p := {| taskRunner := {| ticks := 2 |};
              gkeParents := ["p1"; "p2"];
              clusterManagerClient := recoveringClient 1;
              connection := None |} in
  refresh KUBERNETES_API_SERVER KUBERNETES_API_SERVER_CA KUBERNETES_AUTH_PROVIDER (started p) = (Throw (mkError "Error" "Not initialized"), started p)
  /\ exists st',
      connect KUBERNETES_API_SERVER KUBERNETES_API_SERVER_CA KUBERNETES_AUTH_PROVIDER acceptingSink (started p) = (Return tt, st')
      /\ connection (this st') = Some acceptingSink
      /\ apiCalls (trace st') = ["p1"; "p2"; "p1"; "p2"].
Proof.
  intros p.
  destruct (X13_fromConfig_then_connect KUBERNETES_API_SERVER KUBERNETES_API_SERVER_CA KUBERNETES_AUTH_PROVIDER nat (fun _ => Return 2%nat)
              (recoveringClient 1) winstonLogger
              {| createScheduledTaskRunner := fun n => {| ticks := n |} |}
              (gkeConfig ["p1"; "p2"]) p acceptingSink eq_refl)
    as (_ & Hrefresh & Hconnect).
  split; [exact Hrefresh | exact Hconnect].
Defined.
